(** * Clustering economies: a model of [tools.py]

    The module [tools.py] holds two classes.  [Preprocessing] loads a table
    of country indicators, converts it to numbers and prunes sparse rows and
    columns.  [Clustering] standardises a cleaned table, optionally projects
    it on its principal components and runs several clustering procedures,
    keeping every result in the dictionary [clusterings].

    The numeric routines (pandas' parser, scikit-learn, fastcluster, hdbscan)
    are external: they appear here as the fields of the class [Library].
    Everything the repository itself does (which routine is called on which
    data, what is stored under which name, what is dropped) is written out.
    Floating-point numbers are modelled by rationals.  Plots, prints, the
    imputation and the export to a file are left out. *)

From Stdlib Require Import ZArith QArith Lia Lqa.
From stdpp Require Import base option list strings gmap pretty sorting.

Local Open Scope Z_scope.

(** ** Python values and exceptions *)

#[global] Instance Q_eq_dec : EqDecision Q.
Proof. solve_decision. Defined.

#[global] Instance Qlt_dec (x y : Q) : Decision (x < y)%Q.
Proof.
  destruct (Qlt_le_dec x y) as [Hlt | Hle]; [left | right]; [exact Hlt |].
  intros Hlt. exact (Qle_not_lt _ _ Hle Hlt).
Defined.

#[global] Instance Qle_dec (x y : Q) : Decision (x <= y)%Q.
Proof.
  destruct (Qlt_le_dec y x) as [Hlt | Hle]; [right | left]; [| exact Hle].
  intros Hle. exact (Qle_not_lt _ _ Hle Hlt).
Defined.

(** The exceptions that reach the caller.  [LibraryError] stands for any
    exception raised inside a numeric routine of an external library. *)
Inductive exn : Type :=
  | KeyError (key : string)
  | ValueError (msg : string)
  | AttributeError (attr : string)
  | LibraryError.

#[global] Instance exn_eq_dec : EqDecision exn.
Proof. solve_decision. Defined.

(** The error kinds of the specification, as the source raises them:
    [set_index(..., verify_integrity=True)] raises a [ValueError] on a
    duplicated key, and reading the attribute [df_pc] before [getPC] has
    created it raises an [AttributeError]. *)
Definition DuplicateKeyError : exn := ValueError "Index has duplicate keys".
Definition PrecomputeRequiredError : exn := AttributeError "df_pc".
Definition ClusteringLibraryError : exn := LibraryError.

Inductive result (A : Type) : Type :=
  | Ok (a : A)
  | Raise (e : exn).
Arguments Ok {A} a.
Arguments Raise {A} e.

#[global] Instance result_bind : MBind result := λ A B k r,
  match r with
  | Ok a => k a
  | Raise e => Raise e
  end.

(** A cell of a pandas frame: text, a number, or the missing value. *)
Inductive cell : Type :=
  | Text (s : string)
  | Num (q : Q)
  | NaN.

#[global] Instance cell_eq_dec : EqDecision cell.
Proof. solve_decision. Defined.

Definition isnull (c : cell) : bool :=
  match c with
  | NaN => true
  | _ => false
  end.

(** A frame: row labels, column labels, and the rows. *)
Record DataFrame (A : Type) : Type := mkDataFrame {
  index : list cell;
  columns : list cell;
  values : list (list A)
}.
Arguments mkDataFrame {A} index columns values.
Arguments index {A} d.
Arguments columns {A} d.
Arguments values {A} d.

(** Every row has one cell per column, and there is one row per label. *)
Definition well_formed {A} (df : DataFrame A) : Prop :=
  length (values df) = length (index df) ∧
  Forall (λ row, length row = length (columns df)) (values df).

(** [str(n)] of a Python integer. *)
Definition str (n : Z) : string := pretty n.

(** [np.arange(a, b)] on integers. *)
Definition arange (a b : Z) : list Z := seqZ a (b - a).

(** ** pandas operations used by the source *)

(** Position of the first column carrying a label. *)
Fixpoint get_loc (l : cell) (labels : list cell) : option nat :=
  match labels with
  | [] => None
  | x :: rest => if decide (x = l) then Some 0%nat else S <$> get_loc l rest
  end.

(** All positions carrying a label. *)
Fixpoint get_locs (l : cell) (labels : list cell) : list nat :=
  match labels with
  | [] => []
  | x :: rest =>
      (if decide (x = l) then [0%nat] else []) ++ (S <$> get_locs l rest)
  end.

Definition column (j : nat) (rows : list (list cell)) : list cell :=
  (λ row, nth j row NaN) <$> rows.

(** Keep the entries whose flag is set. *)
Fixpoint select {A} (mask : list bool) (l : list A) : list A :=
  match mask, l with
  | b :: mask', x :: l' => if b then x :: select mask' l' else select mask' l'
  | _, _ => []
  end.

(** [df.set_index(key, verify_integrity=verify)] *)
Definition set_index (key : string) (verify : bool) (df : DataFrame cell)
  : result (DataFrame cell) :=
  match get_loc (Text key) (columns df) with
  | None => Raise (KeyError key)
  | Some j =>
      let idx := column j (values df) in
      if verify && negb (bool_decide (NoDup idx)) then Raise DuplicateKeyError
      else Ok {| index := idx;
                 columns := delete j (columns df);
                 values := delete j <$> values df |}
  end.

(** [df[names]]: the columns carrying the given labels, in the order asked. *)
Fixpoint getitem_locs (names : list string) (labels : list cell)
  : result (list nat) :=
  match names with
  | [] => Ok []
  | n :: rest =>
      match get_locs (Text n) labels with
      | [] => Raise (KeyError n)
      | js => (rest' ← getitem_locs rest labels ; Ok (js ++ rest'))
      end
  end.

Definition getitem (names : list string) (df : DataFrame cell)
  : result (DataFrame cell) :=
  js ← getitem_locs names (columns df) ;
  Ok {| index := index df;
        columns := (λ j, nth j (columns df) NaN) <$> js;
        values := (λ row, (λ j, nth j row NaN) <$> js) <$> values df |}.

(** [df.drop(labels, axis)] for labels taken from that axis. *)
Definition keep_mask (labels dropped : list cell) : list bool :=
  (λ l, bool_decide (l ∉ dropped)) <$> labels.

Definition drop {A} (dropped : list cell) (axis : Z) (df : DataFrame A)
  : result (DataFrame A) :=
  if decide (axis = 0) then
    let mask := keep_mask (index df) dropped in
    Ok {| index := select mask (index df);
          columns := columns df;
          values := select mask (values df) |}
  else if decide (axis = 1) then
    let mask := keep_mask (columns df) dropped in
    Ok {| index := index df;
          columns := select mask (columns df);
          values := select mask <$> values df |}
  else Raise (ValueError "No axis named").

(** [df.isnull().sum(axis)]: the number of missing cells of every row
    ([axis = 1]) or of every column ([axis = 0]). *)
Definition count_null (line : list cell) : Z :=
  Z.of_nat (length (filter (λ c, isnull c = true) line)).

Definition transpose (df : DataFrame cell) : list (list cell) :=
  (λ j, column j (values df)) <$> seq 0 (length (columns df)).

Definition isnull_sum (axis : Z) (df : DataFrame cell) : list (cell * Z) :=
  if decide (axis = 0) then zip (columns df) (count_null <$> transpose df)
  else zip (index df) (count_null <$> values df).

(** ** Class [Preprocessing] *)

Module Preprocessing.

Section WithParser.

(** [pd.to_numeric] on one text field: the number it denotes, if any. *)
Variable parse_number : string → option Q.

(** [pd.to_numeric(errors='coerce')], cell by cell. *)
Definition to_numeric (c : cell) : cell :=
  match c with
  | Text s =>
      match parse_number s with
      | Some q => Num q
      | None => NaN
      end
  | Num q => Num q
  | NaN => NaN
  end.

(** [df.iloc[:, 1:] = df.iloc[:, 1:].apply(pd.to_numeric, errors='coerce')] *)
Definition convert_row (row : list cell) : list cell :=
  match row with
  | [] => []
  | c :: rest => c :: (to_numeric <$> rest)
  end.

(** [__init__]: [raw] is the frame that [pd.read_csv] returned.  The report
    printed when [verbose] is set is left out. *)
Definition init (raw : DataFrame cell) (varlist : option (list string))
  : result (DataFrame cell) :=
  df ← set_index "Country Code" true raw ;
  df ← match varlist with
       | None | Some [] => Ok df
       | Some vs => getitem ("Country Name" :: vs) df
       end ;
  Ok {| index := index df;
        columns := columns df;
        values := convert_row <$> values df |}.

End WithParser.

(** [int(not axis)] *)
Definition int_not (axis : Z) : Z := if decide (axis = 0) then 1 else 0.

(** The labels of the axis and the number of cells along a line of it. *)
Definition axis_labels {A} (axis : Z) (df : DataFrame A) : list cell :=
  if decide (axis = 0) then index df else columns df.

Definition axis_length {A} (axis : Z) (df : DataFrame A) : Z :=
  if decide (axis = 0) then Z.of_nat (length (columns df))
  else Z.of_nat (length (index df)).

(** [missing_df[0] > p*length], for one count; [p] is the value of the
    number that the caller passes.  The product is the exact one here;
    numpy rounds it to the nearest double.  Rounding is monotone and leaves
    a count as it is, so the two tests can differ only where the exact
    product is below a count and rounds to it ([rounded_test_differs]). *)
Definition is_poor (p : Q) (len : Z) (missing : Z) : bool :=
  bool_decide (p * inject_Z len < inject_Z missing)%Q.

Definition poor_features (axis : Z) (p : Q) (df : DataFrame cell) : list cell :=
  let missing_df := isnull_sum (int_not axis) df in
  fst <$> filter (λ lm, is_poor p (axis_length axis df) lm.2 = true) missing_df.

(** [dropPoorFeatures]: returns the pruned frame (which replaces the held
    one) and the labels that were dropped. *)
Definition dropPoorFeatures (axis : Z) (p : Q) (df : DataFrame cell)
  : result (DataFrame cell * list cell) :=
  let poor := poor_features axis p df in
  df' ← drop poor axis df ;
  Ok (df', poor).

End Preprocessing.

(** ** Python built-ins used by [clustersTable] *)

(** [sorted(l, key=lambda x: x[0])]: Python's sort is stable, so pairs with
    equal keys keep their relative order. *)
Fixpoint insert_by_key {B} (x : Z * B) (l : list (Z * B)) : list (Z * B) :=
  match l with
  | [] => [x]
  | y :: l' =>
      if decide (x.1 ≤ y.1) then x :: y :: l' else y :: insert_by_key x l'
  end.

Definition sorted_by_key {B} (l : list (Z * B)) : list (Z * B) :=
  foldr insert_by_key [] l.

(** [a.argmin()] and [a.min()] of a numpy array: the first position of the
    least entry, and that entry. *)
Fixpoint np_min_from (best : Q) (l : list Q) : Q :=
  match l with
  | [] => best
  | x :: l' => np_min_from (if decide (x < best)%Q then x else best) l'
  end.

Fixpoint np_argmin_from (best : Q) (ibest i : nat) (l : list Q) : nat :=
  match l with
  | [] => ibest
  | x :: l' =>
      if decide (x < best)%Q then np_argmin_from x i (S i) l'
      else np_argmin_from best ibest (S i) l'
  end.

Definition np_min (l : list Q) : result Q :=
  match l with
  | [] => Raise (ValueError "zero-size array")
  | x :: l' => Ok (np_min_from x l')
  end.

Definition np_argmin (l : list Q) : result nat :=
  match l with
  | [] => Raise (ValueError "attempt to get argmin of an empty sequence")
  | x :: l' => Ok (np_argmin_from x 0 1 l')
  end.

(** [np.zeros(n)] *)
Definition np_zeros (n : Z) : result (list Q) :=
  if decide (n < 0) then Raise (ValueError "negative dimensions are not allowed")
  else Ok (replicate (Z.to_nat n) 0%Q).

(** ** The external libraries *)

(** What the source calls but does not define.  The stochastic fitting
    routines read and advance numpy's global random generator, which
    [np.random.seed] resets; the other routines are functions of their
    arguments.  Every routine may raise. *)
Class Library : Type := {
  rng_state : Type;
  np_random_seed : Z → rng_state;
  (** the order in which a [set] built from a list is iterated *)
  set_iter : list Z → list Z;
  (** [sklearn.preprocessing.scale] *)
  scale : DataFrame cell → result (list (list Q));
  (** [PCA().fit_transform]: component scores and explained-variance ratios *)
  PCA_fit_transform :
    rng_state → DataFrame Q → result (list (list Q) * list Q) * rng_state;
  (** [fastcluster.linkage(df, metric, method)] *)
  linkage : DataFrame Q → string → string → result (list (list Q));
  (** [hierarchy.fcluster(links, threshold, criterion='distance')] *)
  fcluster : list (list Q) → option Q → result (list Z);
  (** [hdbscan.HDBSCAN(min_cluster_size).fit_predict(df)] and its [labels_] *)
  HDBSCAN_fit_predict : Z → DataFrame Q → result (list Z);
  (** [GaussianMixture(n, covariance_type, n_init).fit(df).predict(df)] *)
  GaussianMixture_fit_predict :
    rng_state → Z → string → Z → DataFrame Q → result (list Z) * rng_state;
  (** [GaussianMixture(n, covariance_type, n_init).fit(df).bic(df)] *)
  GaussianMixture_fit_bic :
    rng_state → Z → string → Z → DataFrame Q → result Q * rng_state;
  (** [BayesianGaussianMixture(n, ...).fit(df).predict(df)] *)
  BayesianGaussianMixture_fit_predict :
    rng_state → Z → string → Z → DataFrame Q → result (list Z) * rng_state;
  (** [KMeans(n_clusters, n_init).fit_predict(df)] and its [labels_] *)
  KMeans_fit_predict :
    rng_state → Z → Z → DataFrame Q → result (list Z) * rng_state;
  (** [metrics.silhouette_score(df, labels, metric='euclidean')] *)
  silhouette_score : DataFrame Q → list Z → result Q;
  (** [metrics.calinski_harabaz_score(df, labels)] *)
  calinski_harabaz_score : DataFrame Q → list Z → result Q
}.

(** What Python promises about the iteration of a set: every member once.
    The order is left to the implementation. *)
Class SetLaws (iter : list Z → list Z) : Prop := {
  set_iter_NoDup : ∀ l, NoDup (iter l);
  set_iter_elem_of : ∀ l x, x ∈ iter l ↔ x ∈ l
}.

(** ** Class [Clustering] *)

Module Clustering.

(** The table of a clustering: one line per cluster label, holding the
    names of its members (a frame indexed by [Cluster] in the source). *)
Definition Table : Type := list (Z * list cell).

Section ClustersTable.

Variable iter : list Z → list Z.

(** [clustersTable], reading [self.country_names]. *)
Definition clustersTable (country_names : list cell) (clustering : list Z)
  : result Table :=
  let lis := sorted_by_key (zip clustering country_names) in
  let groups := iter (fst <$> lis) in
  let table :=
    zip groups
        ((λ x, snd <$> filter (λ y, y.1 = x) lis) <$> groups) in
  match table with
  | [] => Raise (ValueError "Length mismatch")
  | _ => Ok table
  end.

End ClustersTable.

(** A [PCA] estimator: as its constructor returns it, or fitted, with its
    [explained_variance_ratio_]. *)
Inductive estimator : Type :=
  | Unfitted
  | Fitted (ratios : list Q).

Section WithLibrary.

Context `{Library}.

(** The attributes of a [Clustering] object, and numpy's global random
    generator, which belongs to the process. *)
Record Session : Type := mkSession {
  df : DataFrame Q;
  country_names : list cell;
  df_pc : option (DataFrame Q);
  pca : option estimator;
  link : option (list (list Q));
  min_BIC : option (Z * Q);
  clusterings : gmap string Table;
  np_random : rng_state
}.

Definition set_pca (e : estimator) (s : Session) :=
  mkSession (df s) (country_names s) (df_pc s) (Some e) (link s)
            (min_BIC s) (clusterings s) (np_random s).

Definition set_df_pc (pc : DataFrame Q) (s : Session) :=
  mkSession (df s) (country_names s) (Some pc) (pca s) (link s)
            (min_BIC s) (clusterings s) (np_random s).

Definition set_link (l : list (list Q)) (s : Session) :=
  mkSession (df s) (country_names s) (df_pc s) (pca s) (Some l)
            (min_BIC s) (clusterings s) (np_random s).

Definition set_min_BIC (b : Z * Q) (s : Session) :=
  mkSession (df s) (country_names s) (df_pc s) (pca s) (link s)
            (Some b) (clusterings s) (np_random s).

Definition set_clustering (name : string) (t : Table) (s : Session) :=
  mkSession (df s) (country_names s) (df_pc s) (pca s) (link s)
            (min_BIC s) (<[name := t]> (clusterings s)) (np_random s).

Definition set_np_random (g : rng_state) (s : Session) :=
  mkSession (df s) (country_names s) (df_pc s) (pca s) (link s)
            (min_BIC s) (clusterings s) g.

(** A method body: it may change the session, and returns or raises.  An
    exception leaves the changes made before it in place. *)
Definition M (A : Type) : Type := Session → result A * Session.

#[global] Instance M_ret : MRet M := λ A a s, (Ok a, s).

#[global] Instance M_bind : MBind M := λ A B k m s,
  match m s with
  | (Ok a, s') => k a s'
  | (Raise e, s') => (Raise e, s')
  end.

Definition lift {A} (r : result A) : M A := λ s, (r, s).

Definition gets {A} (f : Session → A) : M A := λ s, (Ok (f s), s).

Definition modify (f : Session → Session) : M unit := λ s, (Ok tt, f s).

(** A call of a routine that draws from the global generator. *)
Definition draw {A} (f : rng_state → result A * rng_state) : M A := λ s,
  let '(r, g) := f (np_random s) in (r, set_np_random g s).

(** [np.random.seed(n)] *)
Definition seed (n : Z) : M unit := modify (set_np_random (np_random_seed n)).

(** [for x in l: body(x)] *)
Fixpoint for_each {A} (l : list A) (body : A → M unit) : M unit :=
  match l with
  | [] => mret tt
  | x :: l' => _ ← body x; for_each l' body
  end.

(** [for x in l: acc = body(x, acc)] for a loop that updates local data *)
Fixpoint for_fold {A S} (l : list A) (body : A → S → M S) (acc : S) : M S :=
  match l with
  | [] => mret acc
  | x :: l' => acc' ← body x acc; for_fold l' body acc'
  end.

(** [[f(x) for x in l]] *)
Fixpoint comprehension {A B} (l : list A) (f : A → M B) : M (list B) :=
  match l with
  | [] => mret []
  | x :: l' => y ← f x; ys ← comprehension l' f; mret (y :: ys)
  end.

(** [__init__]: [raw] is the frame that [pd.read_csv] returned, [g] the
    state of the global generator when the object is built. *)
Definition init (raw : DataFrame cell) (g : rng_state) : result Session :=
  d ← set_index "Country Code" true raw;
  j ← match get_loc (Text "Country Name") (columns d) with
      | Some j => Ok j
      | None => Raise (KeyError "Country Name")
      end;
  let names := column j (values d) in
  d ← drop [Text "Country Name"] 1 d;
  x ← scale d;
  Ok {| df := {| index := index d; columns := columns d; values := x |};
        country_names := names;
        df_pc := None;
        pca := None;
        link := None;
        min_BIC := None;
        clusterings := ∅;
        np_random := g |}.

(** [getPC]; the plot is left out.  The estimator is assigned before it is
    fitted, and [fit_transform] fits it in place; the scores are assigned
    once it has returned. *)
Definition getPC : M unit :=
  _ ← modify (set_pca Unfitted);
  d ← gets df;
  '(scores, ratios) ← draw (λ g, PCA_fit_transform g d);
  _ ← modify (set_pca (Fitted ratios));
  modify (set_df_pc {| index := index d;
                       columns := (λ j, Num (inject_Z j)) <$>
                                  seqZ 0 (Z.of_nat (length ratios));
                       values := scores |}).

(** [frame.iloc[:, :n]] for [0 < n] *)
Definition iloc_columns {A} (n : Z) (d : DataFrame A) : DataFrame A :=
  {| index := index d;
     columns := take (Z.to_nat n) (columns d);
     values := take (Z.to_nat n) <$> values d |}.

(** The choice of the feature space that opens every clustering method:
    [if on_PC > 0: df = self.df_pc.iloc[:, :on_PC+1] else: df = self.df]. *)
Definition select_features (on_PC : Z) : M (DataFrame Q) := λ s,
  if decide (0 < on_PC) then
    match df_pc s with
    | Some pc => (Ok (iloc_columns (on_PC + 1) pc), s)
    | None => (Raise PrecomputeRequiredError, s)
    end
  else (Ok (df s), s).

(** [self.clusterings[name] = self.clustersTable(labels)] *)
Definition store (name : string) (labels : list Z) : M unit :=
  names ← gets country_names;
  t ← lift (clustersTable set_iter names labels);
  modify (set_clustering name t).

(** [benchClustering(estimator, name, data)] *)
Definition benchClustering (labels : list Z) (data : DataFrame Q) : M (Q * Q) :=
  silh ← lift (silhouette_score data labels);
  cal_har ← lift (calinski_harabaz_score data labels);
  mret (silh, cal_har).

(** The [method] argument of [hierarchicalClustering]: a name, or a list
    of names. *)
Inductive method_arg : Type :=
  | MethodName (s : string)
  | MethodList (l : list string).

Definition all_methods : list string :=
  ["average"; "complete"; "single"; "weighted"; "centroid"; "median"; "ward"].

Definition linkage_methods (method : method_arg) : list string :=
  match method with
  | MethodName s => if decide (s = "all") then all_methods else [s]
  | MethodList l => l
  end.

Definition hierarchical_name (met metric : string) : string :=
  "hierarchical_" +:+ met +:+ "_" +:+ metric.

(** The bodies of the clustering methods, after the choice of the feature
    space [d].  Plots and prints are left out. *)
Definition hierarchicalClustering_on (d : DataFrame Q) (metric : string)
    (method : method_arg) (threshold : option Q) : M unit :=
  for_each (linkage_methods method) (λ met,
    links ← lift (linkage d metric met);
    _ ← modify (set_link links);
    labels ← lift (fcluster links threshold);
    store (hierarchical_name met metric) labels).

Definition hdbscan_on (d : DataFrame Q) (min_cluster_size : Z) : M unit :=
  labels ← lift (HDBSCAN_fit_predict min_cluster_size d);
  store "hdbscan" labels.

Definition bayesianGaussianMixture_on (d : DataFrame Q) (n_components : Z)
    (covariance_type : string) (n_init : Z) : M unit :=
  labels ← draw (λ g, BayesianGaussianMixture_fit_predict
                        g n_components covariance_type n_init d);
  store ("bayesian gm" +:+ str n_components) labels.

Definition gaussianMixture_on (d : DataFrame Q) (n_components : Z)
    (covariance_type : string) (n_init : Z) : M unit :=
  labels ← draw (λ g, GaussianMixture_fit_predict
                        g n_components covariance_type n_init d);
  store ("gm" +:+ str n_components) labels.

Definition gmBIC_on (d : DataFrame Q) (n_min n_max : Z)
    (covariance_type : string) (n_init : Z) : M unit :=
  let n_components := arange n_min n_max in
  bics ← comprehension n_components (λ n,
           draw (λ g, GaussianMixture_fit_bic g n covariance_type n_init d));
  i ← lift (np_argmin bics);
  b ← lift (np_min bics);
  modify (set_min_BIC (Z.of_nat i + 1, b)).

Definition kmeans_on (d : DataFrame Q) (n_clusters n_init : Z)
    (evaluate : bool) : M unit :=
  _ ← seed 42;
  labels ← draw (λ g, KMeans_fit_predict g n_clusters n_init d);
  _ ← store ("kmeans" +:+ str n_clusters) labels;
  if evaluate then (_ ← benchClustering labels d; mret tt) else mret tt.

(** One turn of the loop of [multipleKmeans]; [scores] holds the arrays
    [silh] and [cal_har]. *)
Definition multipleKmeans_step (d : DataFrame Q) (k_min n_init : Z) (k : Z)
    (scores : list Q * list Q) : M (list Q * list Q) :=
  _ ← seed 42;
  labels ← draw (λ g, KMeans_fit_predict g k n_init d);
  _ ← store ("kmeans" +:+ str k) labels;
  sv ← lift (silhouette_score d labels);
  let silh := <[Z.to_nat (k - k_min) := sv]> scores.1 in
  cv ← lift (calinski_harabaz_score d labels);
  let cal_har := <[Z.to_nat (k - k_min) := cv]> scores.2 in
  mret (silh, cal_har).

Definition multipleKmeans_on (d : DataFrame Q) (k_min k_max n_init : Z)
  : M (list Q * list Q) :=
  let ks := arange k_min k_max in
  silh ← lift (np_zeros (k_max - k_min));
  cal_har ← lift (np_zeros (k_max - k_min));
  for_fold ks (multipleKmeans_step d k_min n_init) (silh, cal_har).

(** The methods as the source defines them. *)
Definition hierarchicalClustering (metric : string) (method : method_arg)
    (threshold : option Q) (on_PC : Z) : M unit :=
  d ← select_features on_PC;
  hierarchicalClustering_on d metric method threshold.

Definition hdbscan (min_cluster_size on_PC : Z) : M unit :=
  d ← select_features on_PC; hdbscan_on d min_cluster_size.

Definition bayesianGaussianMixture (n_components : Z)
    (covariance_type : string) (n_init on_PC : Z) : M unit :=
  d ← select_features on_PC;
  bayesianGaussianMixture_on d n_components covariance_type n_init.

Definition gaussianMixture (n_components : Z) (covariance_type : string)
    (n_init on_PC : Z) : M unit :=
  d ← select_features on_PC;
  gaussianMixture_on d n_components covariance_type n_init.

Definition gmBIC (n_min n_max : Z) (covariance_type : string)
    (n_init on_PC : Z) : M unit :=
  d ← select_features on_PC; gmBIC_on d n_min n_max covariance_type n_init.

Definition kmeans (n_clusters on_PC n_init : Z) (evaluate : bool) : M unit :=
  d ← select_features on_PC; kmeans_on d n_clusters n_init evaluate.

Definition multipleKmeans (k_min k_max on_PC n_init : Z)
  : M (list Q * list Q) :=
  d ← select_features on_PC; multipleKmeans_on d k_min k_max n_init.

(** ** Calls on a session *)

Inductive call : Type :=
  | GetPC
  | HierarchicalClustering (metric : string) (method : method_arg)
      (threshold : option Q) (on_PC : Z)
  | Hdbscan (min_cluster_size on_PC : Z)
  | BayesianGaussianMixture (n_components : Z) (covariance_type : string)
      (n_init on_PC : Z)
  | GaussianMixture (n_components : Z) (covariance_type : string)
      (n_init on_PC : Z)
  | GmBIC (n_min n_max : Z) (covariance_type : string) (n_init on_PC : Z)
  | Kmeans (n_clusters on_PC n_init : Z) (evaluate : bool)
  | MultipleKmeans (k_min k_max on_PC n_init : Z).

(** Forget the value a method returns. *)
Definition void {A} (m : M A) : M unit := _ ← m; mret tt.

Definition exec (c : call) : M unit :=
  match c with
  | GetPC => getPC
  | HierarchicalClustering metric method threshold on_PC =>
      hierarchicalClustering metric method threshold on_PC
  | Hdbscan mcs on_PC => hdbscan mcs on_PC
  | BayesianGaussianMixture n cov n_init on_PC =>
      bayesianGaussianMixture n cov n_init on_PC
  | GaussianMixture n cov n_init on_PC => gaussianMixture n cov n_init on_PC
  | GmBIC n_min n_max cov n_init on_PC => gmBIC n_min n_max cov n_init on_PC
  | Kmeans n on_PC n_init evaluate => kmeans n on_PC n_init evaluate
  | MultipleKmeans k_min k_max on_PC n_init =>
      void (multipleKmeans k_min k_max on_PC n_init)
  end.

(** The body of a clustering call on a given feature space. *)
Definition exec_on (c : call) (d : DataFrame Q) : M unit :=
  match c with
  | GetPC => getPC
  | HierarchicalClustering metric method threshold _ =>
      hierarchicalClustering_on d metric method threshold
  | Hdbscan mcs _ => hdbscan_on d mcs
  | BayesianGaussianMixture n cov n_init _ =>
      bayesianGaussianMixture_on d n cov n_init
  | GaussianMixture n cov n_init _ => gaussianMixture_on d n cov n_init
  | GmBIC n_min n_max cov n_init _ => gmBIC_on d n_min n_max cov n_init
  | Kmeans n _ n_init evaluate => kmeans_on d n n_init evaluate
  | MultipleKmeans k_min k_max _ n_init =>
      void (multipleKmeans_on d k_min k_max n_init)
  end.

(** The [on_PC] argument of a clustering call. *)
Definition on_PC_of (c : call) : option Z :=
  match c with
  | GetPC => None
  | HierarchicalClustering _ _ _ on_PC
  | Hdbscan _ on_PC
  | BayesianGaussianMixture _ _ _ on_PC
  | GaussianMixture _ _ _ on_PC
  | GmBIC _ _ _ _ on_PC
  | Kmeans _ on_PC _ _
  | MultipleKmeans _ _ on_PC _ => Some on_PC
  end.

(** The names under which a call stores its results. *)
Definition run_names (c : call) : list string :=
  match c with
  | GetPC => []
  | HierarchicalClustering metric method _ _ =>
      (λ met, hierarchical_name met metric) <$> linkage_methods method
  | Hdbscan _ _ => ["hdbscan"]
  | BayesianGaussianMixture n _ _ _ => ["bayesian gm" +:+ str n]
  | GaussianMixture n _ _ _ => ["gm" +:+ str n]
  | GmBIC _ _ _ _ _ => []
  | Kmeans n _ _ _ => ["kmeans" +:+ str n]
  | MultipleKmeans k_min k_max _ _ =>
      (λ k, "kmeans" +:+ str k) <$> arange k_min k_max
  end.

(** A series of calls; the caller goes on after an exception. *)
Definition run (cs : list call) (s : Session) : Session :=
  foldl (λ s c, (exec c s).2) s cs.

End WithLibrary.

End Clustering.

(** ** The set of CPython, for integer keys

    [clustersTable] iterates a [set] of labels.  CPython (3.7,
    [Objects/setobject.c]) keeps a set in an open-addressing table that starts
    with eight slots; a key goes to slot [hash & mask], a taken slot sends it
    along the probe sequence, the table grows when it is three fifths full,
    and iteration reads the slots from the first to the last. *)
Module CPython.

Definition PySet_MINSIZE : Z := 8.
Definition LINEAR_PROBES : Z := 9.
Definition PERTURB_SHIFT : Z := 5.

(** [hash(n)] of an integer: the value modulo [2^61 - 1] with the sign of
    [n], and [-2] in place of [-1]. *)
Definition hash_int (n : Z) : Z :=
  let h := Z.rem n (2 ^ 61 - 1) in
  if decide (h = -1) then -2 else h.

(** The slots of a table: a key or nothing (no key is ever deleted here). *)
Definition table : Type := list (option Z).

Definition slot (t : table) (i : Z) : option Z :=
  default None (t !! Z.to_nat i).

(** The linear probes that follow slot [i]: the first free slot among
    [i+1 .. i+j], or the key if it is met first. *)
Fixpoint linear_probe (t : table) (key : Z) (i : Z) (j : nat)
  : option (Z + unit) :=
  match j with
  | O => None
  | S j' =>
      match slot t (i + 1) with
      | None => Some (inl (i + 1))
      | Some k =>
          if decide (k = key) then Some (inr tt)
          else linear_probe t key (i + 1) j'
      end
  end.

(** The search of [set_add_entry]: the free slot for [key], or nothing when
    the key is already there. *)
Fixpoint find_slot (fuel : nat) (t : table) (mask key i perturb : Z)
  : option Z :=
  match fuel with
  | O => None
  | S fuel' =>
      match slot t i with
      | None => Some i
      | Some k =>
          if decide (k = key) then None
          else
            let next :=
              let perturb' := Z.shiftr perturb PERTURB_SHIFT in
              find_slot fuel' t mask key
                        (Z.land (i * 5 + 1 + perturb') mask) perturb' in
            if decide (i + LINEAR_PROBES ≤ mask) then
              match linear_probe t key i (Z.to_nat LINEAR_PROBES) with
              | Some (inl i') => Some i'
              | Some (inr _) => None
              | None => next
              end
            else next
      end
  end.

Definition insert_key (t : table) (key : Z) : table :=
  let mask := Z.of_nat (length t) - 1 in
  let h := hash_int key `mod` 2 ^ 64 in
  match find_slot (length t + 16) t mask key (Z.land h mask) h with
  | Some i => <[Z.to_nat i := Some key]> t
  | None => t
  end.

Definition used (t : table) : Z := Z.of_nat (length (omap id t)).

(** [set_table_resize]: the smallest power of two above [minused], at least
    eight; the keys are put again in the order of the old slots. *)
Fixpoint new_size (fuel : nat) (size minused : Z) : Z :=
  match fuel with
  | O => size
  | S fuel' =>
      if decide (size ≤ minused) then new_size fuel' (2 * size) minused
      else size
  end.

Definition resize (t : table) (minused : Z) : table :=
  let size := new_size 64 PySet_MINSIZE minused in
  foldl insert_key (replicate (Z.to_nat size) None) (omap id t).

(** [set_add_key] *)
Definition add_key (t : table) (key : Z) : table :=
  let t' := insert_key t key in
  if decide (used t' = used t) then t'
  else if decide (used t' * 5 < (Z.of_nat (length t') - 1) * 3) then t'
  else resize t' (if decide (50000 < used t') then used t' * 2
                  else used t' * 4).

(** [set(l)], then the keys in the order of iteration. *)
Definition set_iter (l : list Z) : list Z :=
  omap id (foldl add_key (replicate (Z.to_nat PySet_MINSIZE) None) l).

End CPython.

(** ** A small library and small tables, to run the model

    The theorems below hold for every [Library].  To evaluate the methods
    on concrete sessions, [sample_library] fills the interface with simple
    functions: the generator is a counter, the fitted labels depend on it,
    and the criterion of a mixture is read from [sample_bic]. *)
Module Sample.

(** Decimal numerals, the only text [sample_parse] takes for a number. *)
Definition digit_value (a : Ascii.ascii) : option Z :=
  let n := Z.of_N (Ascii.N_of_ascii a) in
  if decide (48 ≤ n ≤ 57) then Some (n - 48) else None.

Fixpoint parse_digits (acc : Z) (s : string) : option Z :=
  match s with
  | EmptyString => Some acc
  | String a s' =>
      match digit_value a with
      | Some d => parse_digits (10 * acc + d) s'
      | None => None
      end
  end.

Definition sample_parse (s : string) : option Q :=
  match s with
  | EmptyString => None
  | _ => inject_Z <$> parse_digits 0 s
  end.

Definition cell_number (c : cell) : result Q :=
  match c with
  | Num q => Ok q
  | _ => Raise LibraryError
  end.

Fixpoint traverse {A B} (f : A → result B) (l : list A) : result (list B) :=
  match l with
  | [] => Ok []
  | x :: l' => y ← f x; ys ← traverse f l'; Ok (y :: ys)
  end.

(** Labels [0 .. n-1] handed out in turn, starting at the generator. *)
Definition cyclic_labels (g n : Z) (d : DataFrame Q) : result (list Z) :=
  if decide (0 < n) then
    Ok (imap (λ i _, (g + Z.of_nat i) `mod` n) (values d))
  else Raise LibraryError.

Definition sample_bic (n : Z) : Q :=
  if decide (n = 3) then 5 else if decide (n = 2) then 10 else 20.

Definition sample_library : Library := {|
  rng_state := Z;
  np_random_seed := λ n, n;
  set_iter := CPython.set_iter;
  scale := λ d, traverse (traverse cell_number) (values d);
  PCA_fit_transform := λ g d,
    (Ok (values d, replicate (length (columns d)) 0%Q), g + 1);
  linkage := λ d _ _, Ok (values d);
  fcluster := λ links _, Ok ((λ _, 1) <$> links);
  HDBSCAN_fit_predict := λ _ d,
    Ok (imap (λ i _, if decide (i = 0%nat) then -1 else 0) (values d));
  GaussianMixture_fit_predict := λ g n _ _ d, (cyclic_labels g n d, g + 1);
  GaussianMixture_fit_bic := λ g n _ _ _, (Ok (sample_bic n), g + 1);
  BayesianGaussianMixture_fit_predict := λ g n _ _ d,
    (cyclic_labels g n d, g + 1);
  KMeans_fit_predict := λ g n _ d, (cyclic_labels g n d, g + 1);
  silhouette_score := λ _ labels,
    if decide (2 ≤ length (remove_dups labels))%nat then Ok 0%Q
    else Raise LibraryError;
  calinski_harabaz_score := λ _ _, Ok 1%Q
|}.

(** A cleaned table of four countries and three indicators. *)
Definition cleaned : DataFrame cell := {|
  index := [];
  columns := [Text "Country Code"; Text "Country Name";
              Text "GDP"; Text "Trade"; Text "Health"];
  values := [[Text "ITA"; Text "Italy"; Num 1; Num 2; Num 3];
             [Text "FRA"; Text "France"; Num 2; Num 1; Num 3];
             [Text "BRA"; Text "Brazil"; Num 7; Num 8; Num 9];
             [Text "ARG"; Text "Argentina"; Num 8; Num 7; Num 9]]
|}.

(** A raw table with missing and unparseable fields. *)
Definition raw : DataFrame cell := {|
  index := [];
  columns := [Text "Country Code"; Text "Country Name";
              Text "GDP"; Text "Trade"];
  values := [[Text "ITA"; Text "Italy"; Text "12"; Text "7"];
             [Text "FRA"; Text "France"; NaN; Text ".."];
             [Text "BRA"; Text "Brazil"; Text "30"; NaN];
             [Text "ATA"; NaN; Text ".."; NaN]]
|}.

(** [raw] once loaded by [Preprocessing.init] without a field subset. *)
Definition loaded : DataFrame cell := {|
  index := [Text "ITA"; Text "FRA"; Text "BRA"; Text "ATA"];
  columns := [Text "Country Name"; Text "GDP"; Text "Trade"];
  values := [[Text "Italy"; Num 12; Num 7];
             [Text "France"; NaN; NaN];
             [Text "Brazil"; Num 30; NaN];
             [NaN; NaN; NaN]]
|}.

(** [raw] once loaded with the field subset [["Trade"]]. *)
Definition loaded_trade : DataFrame cell := {|
  index := [Text "ITA"; Text "FRA"; Text "BRA"; Text "ATA"];
  columns := [Text "Country Name"; Text "Trade"];
  values := [[Text "Italy"; Num 7];
             [Text "France"; NaN];
             [Text "Brazil"; NaN];
             [NaN; NaN]]
|}.

(** [loaded] without the rows that miss more than half of their cells, and
    without those that miss more than three quarters. *)
Definition pruned : DataFrame cell := {|
  index := [Text "ITA"; Text "BRA"];
  columns := [Text "Country Name"; Text "GDP"; Text "Trade"];
  values := [[Text "Italy"; Num 12; Num 7];
             [Text "Brazil"; Num 30; NaN]]
|}.

(** [loaded] without the rows that miss any cell. *)
Definition complete : DataFrame cell := {|
  index := [Text "ITA"];
  columns := [Text "Country Name"; Text "GDP"; Text "Trade"];
  values := [[Text "Italy"; Num 12; Num 7]]
|}.

Definition pruned_less : DataFrame cell := {|
  index := [Text "ITA"; Text "FRA"; Text "BRA"];
  columns := [Text "Country Name"; Text "GDP"; Text "Trade"];
  values := [[Text "Italy"; Num 12; Num 7];
             [Text "France"; NaN; NaN];
             [Text "Brazil"; Num 30; NaN]]
|}.

(** [raw] once loaded with the field subset [["Country Name"; "GDP"]]: the
    display name is asked for twice, and its second copy is converted. *)
Definition name_twice : DataFrame cell := {|
  index := [Text "ITA"; Text "FRA"; Text "BRA"; Text "ATA"];
  columns := [Text "Country Name"; Text "Country Name"; Text "GDP"];
  values := [[Text "Italy"; NaN; Num 12];
             [Text "France"; NaN; NaN];
             [Text "Brazil"; NaN; Num 30];
             [NaN; NaN; NaN]]
|}.

(** A loaded table with a single indicator. *)
Definition single_feature : DataFrame cell := {|
  index := [Text "ITA"; Text "ATA"];
  columns := [Text "Country Name"; Text "GDP"];
  values := [[Text "Italy"; Num 12];
             [Text "Antarctica"; NaN]]
|}.

(** A raw table whose display names come after an indicator. *)
Definition name_last : DataFrame cell := {|
  index := [];
  columns := [Text "Country Code"; Text "GDP"; Text "Country Name"];
  values := [[Text "ITA"; Text "12"; Text "Italy"];
             [Text "FRA"; Text ".."; Text "France"]]
|}.

(** The session that [Clustering.init] builds on [cleaned]. *)
Definition session : @Clustering.Session sample_library := {|
  Clustering.df := {|
    index := [Text "ITA"; Text "FRA"; Text "BRA"; Text "ARG"];
    columns := [Text "GDP"; Text "Trade"; Text "Health"];
    values := [[1; 2; 3]; [2; 1; 3]; [7; 8; 9]; [8; 7; 9]]%Q |};
  Clustering.country_names :=
    [Text "Italy"; Text "France"; Text "Brazil"; Text "Argentina"];
  Clustering.df_pc := None;
  Clustering.pca := None;
  Clustering.link := None;
  Clustering.min_BIC := None;
  Clustering.clusterings := ∅;
  Clustering.np_random := (0 : @rng_state sample_library)
|}.

(** The component scores that the sample [PCA] gives for [session]. *)
Definition scores : DataFrame Q := {|
  index := [Text "ITA"; Text "FRA"; Text "BRA"; Text "ARG"];
  columns := [Num 0; Num 1; Num 2];
  values := [[1; 2; 3]; [2; 1; 3]; [7; 8; 9]; [8; 7; 9]]%Q
|}.

(** The same session once [getPC] has run. *)
Definition session_pc : @Clustering.Session sample_library :=
  (@Clustering.getPC sample_library session).2.

End Sample.

(** * Notions used to state the properties *)

Module Notions.
Import Preprocessing.

(** The lines of an axis: each label with its row ([axis = 0]) or with its
    column ([axis = 1]). *)
Definition axis_lines (axis : Z) (df : DataFrame cell)
  : list (cell * list cell) :=
  if decide (axis = 0) then zip (index df) (values df)
  else zip (columns df) (transpose df).

(** The fraction of the cells of a line that are missing. *)
Definition missing_fraction (line : list cell) : Q :=
  inject_Z (count_null line) / inject_Z (Z.of_nat (length line)).

(** The fields of a row after its display name are all missing. *)
Definition all_numeric_missing (row : list cell) : Prop :=
  Forall (λ c, c = NaN) (tail row).

(** A raw frame, as read from a file: one cell per column in every row. *)
Definition rectangular (raw : DataFrame cell) : Prop :=
  Forall (λ row, length row = length (columns raw)) (values raw).

(** A table as [Preprocessing] holds it: well formed, with distinct
    identifiers and distinct field names. *)
Definition valid (df : DataFrame cell) : Prop :=
  well_formed df ∧ NoDup (index df) ∧ NoDup (columns df).

Section WithLibrary.

Context `{Library}.
Import Clustering.

(** A method [m] takes every session [s] to a session related to it. *)
Definition preserves {A} (R : relation Session) (m : M A) : Prop :=
  ∀ s, R s (m s).2.

(** The table, its names and its component scores are the same. *)
Definition same_data (s s' : Session) : Prop :=
  df s' = df s ∧ country_names s' = country_names s ∧ df_pc s' = df_pc s.

(** The component scores are still missing if they were. *)
Definition still_no_scores (s s' : Session) : Prop :=
  df_pc s = None → df_pc s' = None.

(** The component scores are still there if they were. *)
Definition scores_kept (s s' : Session) : Prop :=
  is_Some (df_pc s) → is_Some (df_pc s').

(** The results stored under names outside [names] are the same. *)
Definition same_results_except (names : list string) (s s' : Session) : Prop :=
  ∀ name, name ∉ names → clusterings s' !! name = clusterings s !! name.


(** The table that [kmeans] stores for [k] clusters: the labels fitted
    from the generator as seeded with 42, grouped by [clustersTable]. *)
Definition kmeans_labels (d : DataFrame Q) (n_init k : Z) : result (list Z) :=
  (KMeans_fit_predict (np_random_seed 42) k n_init d).1.

Definition kmeans_table (d : DataFrame Q) (names : list cell) (n_init k : Z)
  : result Table :=
  labels ← kmeans_labels d n_init k;
  clustersTable set_iter names labels.

(** What storing the tables of [kmeans] for the counts [ks], in turn,
    makes of a collection of results. *)
Definition stored_tables (d : DataFrame Q) (names : list cell) (n_init : Z)
    (ks : list Z) (results : gmap string Table) : gmap string Table :=
  foldl (λ m k, match kmeans_table d names n_init k with
                | Ok t => <["kmeans" +:+ str k := t]> m
                | Raise _ => m
                end) results ks.

(** The table that [hierarchicalClustering] stores for a linkage method:
    the tree of the method, cut at the threshold, grouped by
    [clustersTable]. *)
Definition hierarchical_table (d : DataFrame Q) (names : list cell)
    (metric : string) (threshold : option Q) (met : string) : result Table :=
  links ← linkage d metric met;
  labels ← fcluster links threshold;
  clustersTable set_iter names labels.

(** The calls that end by storing their one result. *)
Definition stores_last (c : call) : bool :=
  match c with
  | Hdbscan _ _ | BayesianGaussianMixture _ _ _ _ | GaussianMixture _ _ _ _ =>
      true
  | _ => false
  end.

(** Nothing but numpy's generator has changed. *)
Definition same_but_generator (s s' : Session) : Prop :=
  df s' = df s ∧ country_names s' = country_names s ∧ df_pc s' = df_pc s ∧
  pca s' = pca s ∧ link s' = link s ∧ min_BIC s' = min_BIC s ∧
  clusterings s' = clusterings s.

(** What one turn of the loop of [multipleKmeans] computes for the count
    [k]: the labels, their table and the two scores, in this order; the
    first of them that raises ends the turn, and the loop. *)
Definition kmeans_scored (d : DataFrame Q) (names : list cell) (n_init k : Z)
  : result (Q * Q) :=
  labels ← kmeans_labels d n_init k;
  _ ← clustersTable set_iter names labels;
  sv ← silhouette_score d labels;
  cv ← calinski_harabaz_score d labels;
  Ok (sv, cv).

(** The component count whose criterion is the least: no count of the
    range has a smaller criterion. *)
Definition minimizes_bic (bic : Z → Q) (n_min n_max n : Z) : Prop :=
  n_min ≤ n < n_max ∧ ∀ m, n_min ≤ m < n_max → (bic n <= bic m)%Q.

End WithLibrary.

End Notions.

(** * Properties of [Preprocessing] *)

Module PreprocessingFacts.
Import Preprocessing Notions.

Section Select.

Context {A : Type}.

Lemma select_keep_mask (labels dropped : list cell) :
  select (keep_mask labels dropped) labels = filter (λ l, l ∉ dropped) labels.
Proof.
  induction labels as [| l labels IH]; [done |].
  cbn [keep_mask fmap list_fmap select]. rewrite filter_cons.
  unfold keep_mask in IH. rewrite IH.
  destruct (decide (l ∉ dropped)) as [Hk | Hk].
  - by rewrite bool_decide_eq_true_2.
  - by rewrite bool_decide_eq_false_2.
Qed.

Lemma select_keep_mask_zip (labels dropped : list cell) (data : list A) :
  select (keep_mask labels dropped) (zip labels data)
  = filter (λ ld, ld.1 ∉ dropped) (zip labels data).
Proof.
  revert data. induction labels as [| l labels IH]; intros data; [done |].
  destruct data as [| d data]; [reflexivity |].
  cbn [keep_mask fmap list_fmap select zip_with]. rewrite filter_cons.
  unfold keep_mask in IH. rewrite IH. cbn [fst].
  destruct (decide (l ∉ dropped)) as [Hk | Hk].
  - by rewrite bool_decide_eq_true_2.
  - by rewrite bool_decide_eq_false_2.
Qed.

Lemma select_zip {B} (mask : list bool) (l : list A) (k : list B) :
  select mask (zip l k) = zip (select mask l) (select mask k).
Proof.
  revert l k. induction mask as [| b mask IH]; intros l k; [done |].
  destruct l as [| x l]; [done |].
  destruct k as [| y k]; [destruct b; cbn; [done | by destruct (select mask l)] |].
  cbn [zip_with select]. rewrite IH. by destruct b.
Qed.

Lemma zip_functional (labels : list cell) (data : list A) l a b :
  NoDup labels → (l, a) ∈ zip labels data → (l, b) ∈ zip labels data → a = b.
Proof.
  intros Hnd. revert data.
  induction Hnd as [| x labels Hx Hnd IH]; intros data Ha Hb.
  - by apply elem_of_nil in Ha.
  - destruct data as [| d data]; [by apply elem_of_nil in Ha |].
    cbn [zip_with] in Ha, Hb.
    apply elem_of_cons in Ha as [Ha | Ha]; apply elem_of_cons in Hb as [Hb | Hb].
    + congruence.
    + inversion Ha; subst. apply elem_of_zip_l in Hb. done.
    + inversion Hb; subst. apply elem_of_zip_l in Ha. done.
    + by eapply IH.
Qed.

End Select.

(** Dropping columns and transposing commute. *)
Lemma columns_from_succ (n : nat) (rows : list (list cell)) :
  (λ j, column j rows) <$> seq 0 (S n)
  = column 0 rows :: ((λ j, column j (tail <$> rows)) <$> seq 0 n).
Proof.
  cbn [seq fmap list_fmap]. f_equal.
  rewrite <- fmap_S_seq, <- list_fmap_compose.
  apply list_fmap_ext. intros _ j _. cbn.
  unfold column. rewrite <- list_fmap_compose.
  apply list_fmap_ext. intros _ row _. cbn.
  destruct row; [by destruct j | done].
Qed.

Lemma transpose_select (mask : list bool) (cols : list cell)
    (rows : list (list cell)) :
  length cols = length mask →
  Forall (λ row, length row = length mask) rows →
  (λ j, column j (select mask <$> rows)) <$> seq 0 (length (select mask cols))
  = select mask ((λ j, column j rows) <$> seq 0 (length mask)).
Proof.
  revert cols rows. induction mask as [| b mask IH]; intros cols rows Hc Hr.
  - by destruct cols.
  - destruct cols as [| c cols]; [done |].
    cbn [length] in Hc. injection Hc as Hc.
    assert (Htl : Forall (λ row, length row = length mask) (tail <$> rows)).
    { apply Forall_fmap. eapply Forall_impl; [exact Hr |].
      intros [| x r]; cbn; [done | congruence]. }
    assert (Hkeep : tail <$> (select (true :: mask) <$> rows)
                    = select mask <$> (tail <$> rows)).
    { rewrite <- !list_fmap_compose.
      apply Forall_fmap_ext_1. eapply Forall_impl; [exact Hr |].
      by intros [| x r]. }
    assert (Hhead : column 0 (select (true :: mask) <$> rows) = column 0 rows).
    { unfold column. rewrite <- list_fmap_compose.
      apply Forall_fmap_ext_1. eapply Forall_impl; [exact Hr |].
      by intros [| x r]. }
    assert (Hskip : select (false :: mask) <$> rows
                    = select mask <$> (tail <$> rows)).
    { rewrite <- list_fmap_compose.
      apply Forall_fmap_ext_1. eapply Forall_impl; [exact Hr |].
      by intros [| x r]. }
    cbn [length]. rewrite columns_from_succ.
    destruct b.
    + change (select (true :: mask) (c :: cols)) with (c :: select mask cols).
      cbn [length]. rewrite columns_from_succ, Hhead, Hkeep.
      cbn [select]. f_equal. by apply IH.
    + change (select (false :: mask) (c :: cols)) with (select mask cols).
      rewrite Hskip. cbn [select]. by apply IH.
Qed.

(** The threshold test against the fraction of missing cells. *)
Lemma not_poor_below (p : Q) (c n : Z) :
  0 ≤ c ≤ n →
  (inject_Z c / inject_Z n < p)%Q →
  is_poor p n c = false.
Proof.
  intros Hc Hlt. apply bool_decide_eq_false_2. intros Hpoor.
  destruct (decide (n = 0)) as [-> | Hn].
  - assert (c = 0) as -> by lia.
    rewrite Qmult_0_r in Hpoor. by apply Qlt_irrefl in Hpoor.
  - assert (Hpos : (0 < inject_Z n)%Q) by (unfold Qlt; cbn; lia).
    assert (Heq : (inject_Z c == inject_Z c / inject_Z n * inject_Z n)%Q).
    { field. intros H0. rewrite H0 in Hpos. by apply Qlt_irrefl in Hpos. }
    apply (Qmult_lt_r _ _ _ Hpos) in Hlt. rewrite <- Heq in Hlt.
    exact (Qlt_irrefl _ (Qlt_trans _ _ _ Hlt Hpoor)).
Qed.

Lemma poor_when_all_missing (p : Q) (c n : Z) :
  0 ≤ c ≤ n →
  (p < 1)%Q →
  (inject_Z c / inject_Z n == 1)%Q →
  is_poor p n c = true.
Proof.
  intros Hc Hp Hall. apply bool_decide_eq_true_2.
  destruct (decide (n = 0)) as [-> | Hn].
  - exfalso. unfold Qdiv in Hall. cbn in Hall.
    rewrite Qmult_0_r in Hall. discriminate Hall.
  - assert (Hpos : (0 < inject_Z n)%Q) by (unfold Qlt; cbn; lia).
    assert (Heq : (inject_Z c == inject_Z c / inject_Z n * inject_Z n)%Q).
    { field. intros H0. rewrite H0 in Hpos. by apply Qlt_irrefl in Hpos. }
    rewrite Hall, Qmult_1_l in Heq. rewrite Heq.
    rewrite <- (Qmult_1_l (inject_Z n)) at 2.
    by apply Qmult_lt_r.
Qed.

(** The test of [is_poor] and the test on the rounded product. *)
Section Rounding.

Variable fl : Q → Q.
Hypothesis fl_monotone : ∀ x y, (x <= y)%Q → (fl x <= fl y)%Q.
Hypothesis fl_count :
  ∀ c : Z, 0 ≤ c ≤ 2 ^ 53 → (fl (inject_Z c) == inject_Z c)%Q.

Lemma rounded_test_sound (p : Q) (len c : Z) :
  0 ≤ c ≤ 2 ^ 53 →
  (fl (p * inject_Z len) < inject_Z c)%Q → is_poor p len c = true.
Proof.
  intros Hc Hlt. apply bool_decide_eq_true_2.
  destruct (Qlt_le_dec (p * inject_Z len) (inject_Z c)) as [| Hle]; [done |].
  apply fl_monotone in Hle. rewrite (fl_count c Hc) in Hle.
  exfalso. exact (Qle_not_lt _ _ Hle Hlt).
Qed.

Lemma rounded_test_differs (p : Q) (len c : Z) :
  0 ≤ c ≤ 2 ^ 53 →
  is_poor p len c = true →
  ¬ (fl (p * inject_Z len) < inject_Z c)%Q →
  (fl (p * inject_Z len) == inject_Z c)%Q.
Proof.
  intros Hc Hpoor Hnot. apply bool_decide_eq_true_1 in Hpoor.
  apply Qle_antisym; [| by apply Qnot_lt_le].
  rewrite <- (fl_count c Hc). by apply fl_monotone, Qlt_le_weak.
Qed.

End Rounding.

Lemma count_null_bounds (line : list cell) :
  0 ≤ count_null line ≤ Z.of_nat (length line).
Proof.
  unfold count_null. split; [lia |].
  apply Nat2Z.inj_le, length_filter.
Qed.

Section Axis.

Variable axis : Z.
Hypothesis axis_ok : axis = 0 ∨ axis = 1.

Lemma isnull_sum_lines (df : DataFrame cell) :
  isnull_sum (int_not axis) df
  = prod_map id count_null <$> axis_lines axis df.
Proof.
  unfold isnull_sum, int_not, axis_lines.
  destruct axis_ok as [-> | ->]; repeat case_decide; try done;
    rewrite zip_with_fmap_r, zip_with_zip;
    apply list_fmap_ext; by intros _ [l line] _.
Qed.

Lemma elem_of_poor_features (p : Q) (df : DataFrame cell) (label : cell) :
  label ∈ poor_features axis p df ↔
  ∃ line, (label, line) ∈ axis_lines axis df ∧
          is_poor p (axis_length axis df) (count_null line) = true.
Proof.
  unfold poor_features. rewrite isnull_sum_lines. split.
  - intros ([l c] & -> & Hin)%list_elem_of_fmap.
    apply list_elem_of_filter in Hin as [Hpoor Hin].
    apply list_elem_of_fmap in Hin as ([l' line] & Heq & Hin).
    cbn in Heq. injection Heq as -> ->. eauto.
  - intros (line & Hin & Hpoor).
    apply list_elem_of_fmap. exists (label, count_null line). split; [done |].
    apply list_elem_of_filter. split; [done |].
    apply list_elem_of_fmap. by exists (label, line).
Qed.

Lemma line_length (df : DataFrame cell) (label : cell) (line : list cell) :
  well_formed df →
  (label, line) ∈ axis_lines axis df →
  Z.of_nat (length line) = axis_length axis df.
Proof.
  intros [Hrows Hwidth] Hin. unfold axis_lines, axis_length in *.
  destruct axis_ok as [-> | ->]; repeat case_decide; try done.
  - apply elem_of_zip_r in Hin. rewrite Forall_forall in Hwidth.
    by rewrite (Hwidth _ Hin).
  - apply elem_of_zip_r in Hin. unfold transpose in Hin.
    apply list_elem_of_fmap in Hin as (j & -> & _).
    unfold column. by rewrite length_fmap, Hrows.
Qed.

Lemma drop_lines (dropped : list cell) (df : DataFrame cell) :
  well_formed df →
  ∃ df', drop dropped axis df = Ok df' ∧
    axis_labels axis df' = filter (λ l, l ∉ dropped) (axis_labels axis df) ∧
    axis_lines axis df'
    = filter (λ ld, ld.1 ∉ dropped) (axis_lines axis df).
Proof.
  intros [Hrows Hwidth]. unfold drop, axis_labels, axis_lines.
  assert (Hmask : length (keep_mask (columns df) dropped)
                  = length (columns df)) by apply length_fmap.
  destruct axis_ok as [-> | ->]; repeat case_decide; try done;
    eexists; (split; [reflexivity |]); cbn [index columns values].
  - split; [apply select_keep_mask |].
    by rewrite <- select_zip, select_keep_mask_zip.
  - split; [apply select_keep_mask |].
    unfold transpose. cbn [index columns values].
    rewrite (transpose_select _ (columns df)); [| done | by rewrite Hmask].
    by rewrite Hmask, <- select_zip, select_keep_mask_zip.
Qed.

End Axis.

Lemma axis_lines_label (axis : Z) (df : DataFrame cell) label line :
  (label, line) ∈ axis_lines axis df → label ∈ axis_labels axis df.
Proof.
  unfold axis_lines, axis_labels. case_decide; apply elem_of_zip_l.
Qed.

(** C5, as the code has it: [dropPoorFeatures] on a table whose labels
    along the axis are distinct, with a threshold between 0 and 1 (pandas
    drops by label, so a label carried twice is dropped twice, see below):
    it returns the pruned table and the labels it removed (the labels that
    remain are those not removed, and every removed label was a label of
    the table); a row or column whose fraction of missing cells is strictly
    below the threshold is not removed and stays in the pruned table as it
    was; and when the threshold is below 1, a row or column whose cells are
    all missing is removed. *)
Theorem dropPoorFeatures_threshold (axis : Z) (p : Q) (df : DataFrame cell) :
  axis = 0 ∨ axis = 1 →
  well_formed df →
  NoDup (axis_labels axis df) →
  (0 <= p <= 1)%Q →
  ∃ df' removed,
    dropPoorFeatures axis p df = Ok (df', removed) ∧
    (∀ l, l ∈ axis_labels axis df' ↔ l ∈ axis_labels axis df ∧ l ∉ removed) ∧
    (∀ l, l ∈ removed → l ∈ axis_labels axis df) ∧
    ∀ label line, (label, line) ∈ axis_lines axis df →
      ((missing_fraction line < p)%Q →
         (label ∉ removed) ∧ (label, line) ∈ axis_lines axis df') ∧
      ((p < 1)%Q → (missing_fraction line == 1)%Q →
         label ∈ removed ∧ label ∉ axis_labels axis df').
Proof.
  intros Hax Hwf Hnd _.
  destruct (drop_lines axis Hax (poor_features axis p df) df Hwf)
    as (df' & Hdrop & Hlabels & Hlines).
  exists df', (poor_features axis p df).
  split; [unfold dropPoorFeatures; by rewrite Hdrop |].
  split; [intros l; rewrite Hlabels, list_elem_of_filter; tauto |].
  split.
  { intros l Hl.
    apply (elem_of_poor_features axis Hax) in Hl as (line & Hin & _).
    by eapply axis_lines_label. }
  intros label line Hin.
  pose proof (line_length axis Hax df label line Hwf Hin) as Hlen.
  pose proof (count_null_bounds line) as Hcount.
  unfold missing_fraction. rewrite Hlen in *. split.
  - intros Hbelow.
    assert (Hkeep : label ∉ poor_features axis p df).
    { intros Hl.
      apply (elem_of_poor_features axis Hax) in Hl as (line' & Hin' & Hpoor).
      assert (line' = line) as ->.
      { unfold axis_lines, axis_labels in *.
        case_decide; by eapply zip_functional. }
      by rewrite (not_poor_below p _ _ Hcount Hbelow) in Hpoor. }
    split; [done |]. rewrite Hlines. by apply list_elem_of_filter.
  - intros Hp Hall.
    assert (Hgone : label ∈ poor_features axis p df).
    { apply (elem_of_poor_features axis Hax). exists line. split; [done |].
      by apply poor_when_all_missing. }
    split; [done |]. rewrite Hlabels, list_elem_of_filter. tauto.
Qed.

Lemma dropPoorFeatures_threshold_witness :
  ∃ df' removed,
    dropPoorFeatures 0 (1 # 2) Sample.loaded = Ok (df', removed) ∧
    (∀ l, l ∈ axis_labels 0 df' ↔
          l ∈ axis_labels 0 Sample.loaded ∧ l ∉ removed) ∧
    (∀ l, l ∈ removed → l ∈ axis_labels 0 Sample.loaded) ∧
    ∀ label line, (label, line) ∈ axis_lines 0 Sample.loaded →
      ((missing_fraction line < 1 # 2)%Q →
         (label ∉ removed) ∧ (label, line) ∈ axis_lines 0 df') ∧
      ((1 # 2 < 1)%Q → (missing_fraction line == 1)%Q →
         label ∈ removed ∧ label ∉ axis_labels 0 df').
Proof.
  apply (dropPoorFeatures_threshold 0 (1 # 2) Sample.loaded).
  - left. reflexivity.
  - split; [reflexivity | repeat constructor].
  - apply (bool_decide_unpack _). vm_compute. exact I.
  - split; vm_compute; discriminate.
Defined.

(** C5, as the specification has it, fails on a table that carries a label
    twice.  Loading with the field subset [["Country Name"; "GDP"]] gives
    two columns named [Country Name]; the second is converted and misses
    every cell.  Pruning the columns drops by label, so the first goes with
    it, although it misses one cell out of four, below the threshold. *)
Lemma dropPoorFeatures_repeated_label_removed :
  init Sample.sample_parse Sample.raw (Some ["Country Name"; "GDP"])
  = Ok Sample.name_twice ∧
  well_formed Sample.name_twice ∧
  (Text "Country Name", [Text "Italy"; Text "France"; Text "Brazil"; NaN])
    ∈ axis_lines 1 Sample.name_twice ∧
  (missing_fraction [Text "Italy"; Text "France"; Text "Brazil"; NaN]
   < 1 # 2)%Q ∧
  dropPoorFeatures 1 (1 # 2) Sample.name_twice
  = Ok ({| index := [Text "ITA"; Text "FRA"; Text "BRA"; Text "ATA"];
           columns := [Text "GDP"];
           values := [[Num 12]; [NaN]; [Num 30]; [NaN]] |},
        [Text "Country Name"]).
Proof.
  split; [reflexivity |].
  split; [split; [reflexivity | repeat constructor] |].
  split; [left |].
  split; reflexivity.
Qed.

Lemma count_null_all_missing (row : list cell) :
  all_numeric_missing row → Z.of_nat (length row) - 1 ≤ count_null row.
Proof.
  unfold all_numeric_missing, count_null.
  destruct row as [| c rest]; [cbn; lia |].
  cbn [tail]. intros Hall. rewrite filter_cons.
  assert (Hrest : filter (λ c, isnull c = true) rest = rest).
  { induction Hall as [| x l -> _ IH]; [done |].
    rewrite filter_cons. by rewrite decide_True, IH. }
  destruct (decide (isnull c = true)); cbn [length]; rewrite Hrest; lia.
Qed.

(** C6, as the code has it: a row whose fields after the display name are
    all missing is removed by [dropPoorFeatures(0, 0.5)] when the table has
    at least two such fields, that is at least three columns with the
    display name, which the count of missing cells includes. *)
Theorem dropPoorFeatures_empty_row_removed (df : DataFrame cell) (i : nat)
    (label : cell) (row : list cell) :
  well_formed df →
  (3 ≤ length (columns df))%nat →
  index df !! i = Some label →
  values df !! i = Some row →
  all_numeric_missing row →
  ∃ df' removed,
    dropPoorFeatures 0 (1 # 2) df = Ok (df', removed) ∧
    label ∈ removed ∧ label ∉ index df'.
Proof.
  intros Hwf Hwide Hlabel Hrow Hall.
  assert (Hax : (0 : Z) = 0 ∨ (0 : Z) = 1) by (by left).
  destruct (drop_lines 0 Hax (poor_features 0 (1 # 2) df) df Hwf)
    as (df' & Hdrop & Hlabels & _).
  exists df', (poor_features 0 (1 # 2) df).
  split; [unfold dropPoorFeatures; by rewrite Hdrop |].
  assert (Hin : (label, row) ∈ axis_lines 0 df).
  { unfold axis_lines. rewrite decide_True by done.
    apply list_elem_of_lookup. exists i.
    by rewrite lookup_zip_with, Hlabel, Hrow. }
  assert (Hgone : label ∈ poor_features 0 (1 # 2) df).
  { apply (elem_of_poor_features 0 Hax). exists row. split; [done |].
    pose proof (line_length 0 Hax df label row Hwf Hin) as Hlen.
    pose proof (count_null_all_missing row Hall) as Hcount.
    unfold axis_length in *. rewrite decide_True in * by done.
    apply bool_decide_eq_true_2. unfold Qlt. cbn. lia. }
  split; [done |].
  unfold axis_labels in Hlabels. rewrite decide_True in Hlabels by done.
  rewrite Hlabels, list_elem_of_filter. tauto.
Qed.

Lemma dropPoorFeatures_empty_row_removed_witness :
  ∃ df' removed,
    dropPoorFeatures 0 (1 # 2) Sample.loaded = Ok (df', removed) ∧
    Text "FRA" ∈ removed ∧ Text "FRA" ∉ index df'.
Proof.
  apply (dropPoorFeatures_empty_row_removed
           Sample.loaded 1 (Text "FRA") [Text "France"; NaN; NaN]).
  - split; [reflexivity | repeat constructor].
  - vm_compute. lia.
  - reflexivity.
  - reflexivity.
  - repeat constructor.
Defined.

(** C6, as the specification has it, fails on a table with one indicator:
    the row of Antarctica has no value for it, yet one missing cell out of
    two does not exceed the threshold 0.5, and nothing is removed. *)
Lemma dropPoorFeatures_single_feature_row_kept :
  well_formed Sample.single_feature ∧
  index Sample.single_feature !! 1%nat = Some (Text "ATA") ∧
  values Sample.single_feature !! 1%nat = Some [Text "Antarctica"; NaN] ∧
  all_numeric_missing [Text "Antarctica"; NaN] ∧
  dropPoorFeatures 0 (1 # 2) Sample.single_feature
  = Ok (Sample.single_feature, []).
Proof.
  split; [split; [reflexivity | repeat constructor] |].
  repeat split; try reflexivity. repeat constructor.
Qed.

(** ** The tables that [Preprocessing] holds are valid *)

Lemma get_loc_lookup (l : cell) (labels : list cell) (j : nat) :
  get_loc l labels = Some j → labels !! j = Some l.
Proof.
  revert j. induction labels as [| x labels IH]; intros j; [done |]. cbn.
  destruct (decide (x = l)) as [-> | _]; [by intros [= <-] |].
  destruct (get_loc l labels) as [j' |]; [| done].
  cbn. intros [= <-]. by apply IH.
Qed.

Lemma elem_of_get_locs (l : cell) (labels : list cell) (j : nat) :
  j ∈ get_locs l labels ↔ labels !! j = Some l.
Proof.
  revert j. induction labels as [| x labels IH]; intros j; cbn.
  - split; [by intros ?%elem_of_nil | done].
  - rewrite elem_of_app, list_elem_of_fmap. destruct j as [| j]; cbn.
    + split.
      * intros [Hj | (j' & ? & _)]; [| done].
        destruct (decide (x = l)) as [-> |]; [done | by apply elem_of_nil in Hj].
      * intros [= ->]. left. rewrite decide_True by done. left.
    + rewrite <- IH. split.
      * intros [Hj | (j' & [= <-] & Hj')]; [| done].
        destruct (decide (x = l)); [| by apply elem_of_nil in Hj].
        by apply list_elem_of_singleton in Hj.
      * intros Hj. right. eauto.
Qed.

Lemma NoDup_get_locs (l : cell) (labels : list cell) :
  NoDup (get_locs l labels).
Proof.
  induction labels as [| x labels IH]; cbn; [constructor |].
  apply NoDup_app. split; [| split].
  - destruct (decide (x = l)); [apply NoDup_singleton | constructor].
  - intros j Hj (j' & -> & _)%list_elem_of_fmap.
    destruct (decide (x = l)); [| by apply elem_of_nil in Hj].
    by apply list_elem_of_singleton in Hj.
  - by apply (NoDup_fmap S).
Qed.

(** Among distinct labels, a label that is found is found once. *)
Lemma get_locs_unique (l : cell) (labels : list cell) (j : nat)
    (rest : list nat) :
  NoDup labels → get_locs l labels = j :: rest →
  rest = [] ∧ labels !! j = Some l.
Proof.
  intros Hnd Hlocs.
  assert (Hj : labels !! j = Some l)
    by (apply elem_of_get_locs; rewrite Hlocs; left).
  split; [| done]. destruct rest as [| j' rest]; [done |]. exfalso.
  assert (Hj' : labels !! j' = Some l)
    by (apply elem_of_get_locs; rewrite Hlocs; right; left).
  pose proof (NoDup_get_locs l labels) as Hlnd. rewrite Hlocs in Hlnd.
  apply NoDup_cons in Hlnd as [Hnotin _]. apply Hnotin.
  rewrite (NoDup_lookup _ _ _ _ Hnd Hj Hj'). left.
Qed.

Lemma getitem_locs_labels (names : list string) (labels : list cell)
    (js : list nat) :
  NoDup labels →
  getitem_locs names labels = Ok js →
  (λ j, nth j labels NaN) <$> js = Text <$> names.
Proof.
  intros Hnd. revert js. induction names as [| n names IH]; intros js.
  - by intros [= <-].
  - cbn. destruct (get_locs (Text n) labels) as [| j rest] eqn:Hlocs; [done |].
    destruct (get_locs_unique _ _ _ _ Hnd Hlocs) as [-> Hj].
    destruct (getitem_locs names labels) as [js' |]; [| done].
    cbn. intros [= <-]. cbn. rewrite (IH js') by done.
    by rewrite (nth_lookup_Some _ _ _ _ Hj).
Qed.

Lemma length_select_same {A B} (mask : list bool) (l : list A) (k : list B) :
  length l = length k → length (select mask l) = length (select mask k).
Proof.
  revert l k. induction mask as [| b mask IH]; intros l k Hlen; [done |].
  destruct l as [| x l], k as [| y k]; try done.
  cbn in Hlen. injection Hlen as Hlen. cbn. specialize (IH l k Hlen).
  destruct b; cbn; congruence.
Qed.

Lemma Forall_select {A} (P : A → Prop) (mask : list bool) (l : list A) :
  Forall P l → Forall P (select mask l).
Proof.
  intros Hl. revert mask. induction Hl as [| x l Hx Hl IH]; intros mask.
  - by destruct mask.
  - destruct mask as [| [] mask]; cbn; [constructor | by constructor | done].
Qed.

Lemma set_index_valid (key : string) (raw d : DataFrame cell) :
  rectangular raw → NoDup (columns raw) →
  set_index key true raw = Ok d → valid d.
Proof.
  intros Hrect Hnd. unfold set_index.
  destruct (get_loc (Text key) (columns raw)) as [j |] eqn:Hloc; [| done].
  apply get_loc_lookup in Hloc.
  destruct (decide (NoDup (column j (values raw)))) as [Hidx | Hidx].
  2: { by rewrite bool_decide_eq_false_2. }
  rewrite bool_decide_eq_true_2 by done. cbn. intros [= <-].
  split; [| split]; cbn.
  - split; cbn; [unfold column; by rewrite !length_fmap |].
    apply Forall_fmap. eapply Forall_impl; [exact Hrect |].
    intros row Hrow. cbn.
    rewrite !length_delete; [by rewrite Hrow | by eexists |].
    apply lookup_lt_is_Some. rewrite Hrow. by eapply lookup_lt_Some.
  - done.
  - eapply sublist_NoDup; [exact Hnd | apply sublist_delete].
Qed.

#[local] Instance Text_inj : Inj (=) (=) Text.
Proof. by intros s1 s2 [= ->]. Qed.

Lemma getitem_valid (names : list string) (d d' : DataFrame cell) :
  valid d → NoDup names → getitem names d = Ok d' → valid d'.
Proof.
  intros ([Hrows Hwidth] & Hidx & Hcols) Hnames. unfold getitem.
  destruct (getitem_locs names (columns d)) as [js |] eqn:Hlocs; [| done].
  cbn. intros [= <-]. split; [| split]; cbn.
  - split; cbn; [by rewrite length_fmap |].
    apply Forall_fmap, Forall_true. intros row. cbn.
    by rewrite !length_fmap.
  - done.
  - rewrite (getitem_locs_labels _ _ _ Hcols Hlocs).
    apply (NoDup_fmap_2 Text), Hnames.
Qed.

Lemma drop_valid (dropped : list cell) (axis : Z) (df df' : DataFrame cell) :
  valid df → drop dropped axis df = Ok df' → valid df'.
Proof.
  intros ([Hrows Hwidth] & Hidx & Hcols). unfold drop.
  repeat case_decide; [| | done]; intros [= <-]; (split; [| split]); cbn.
  - split; cbn; [by apply length_select_same | by apply Forall_select].
  - rewrite select_keep_mask. by apply NoDup_filter.
  - done.
  - split; cbn; [by rewrite length_fmap |].
    apply Forall_fmap. eapply Forall_impl; [exact Hwidth |].
    intros row Hrow. cbn. by apply length_select_same.
  - done.
  - rewrite select_keep_mask. by apply NoDup_filter.
Qed.

Section LoadingValid.

Variable parse_number : string → option Q.

Lemma length_convert_row (row : list cell) :
  length (convert_row parse_number row) = length row.
Proof. destruct row; cbn; [done |]. by rewrite length_fmap. Qed.

(** X8. A rectangular file with distinct field names, loaded whole or with a
    subset of distinct fields other than the display name, gives a valid
    table. *)
Lemma init_valid (raw : DataFrame cell) (varlist : option (list string))
    (df : DataFrame cell) :
  rectangular raw → NoDup (columns raw) →
  (∀ vs, varlist = Some vs → NoDup ("Country Name" :: vs)) →
  init parse_number raw varlist = Ok df → valid df.
Proof.
  intros Hrect Hnd Hvars. unfold init.
  destruct (set_index "Country Code" true raw) as [d |] eqn:Hset; [| done].
  apply set_index_valid in Hset; [| done..]. cbn [mbind result_bind].
  assert (Hsel : ∀ d', match varlist with
                       | Some ((_ :: _) as vs) =>
                           getitem ("Country Name" :: vs) d
                       | _ => Ok d
                       end = Ok d' → valid d').
  { intros d'. destruct varlist as [[| v vs] |]; try by intros [= <-].
    intros Hget. eapply getitem_valid; [done | | done]. by apply Hvars. }
  destruct (match varlist with Some (_ :: _ as vs) => _ | _ => _ end)
    as [d' |]; [| done].
  specialize (Hsel d' eq_refl) as ([Hrows Hwidth] & Hidx & Hcols).
  cbn. intros [= <-]. split; [| done]. split; cbn.
  - by rewrite length_fmap.
  - apply Forall_fmap. eapply Forall_impl; [exact Hwidth |].
    intros row Hrow. cbn. by rewrite length_convert_row.
Qed.

End LoadingValid.

(** X9. Pruning keeps a valid table valid, so the hypotheses of the threshold
    property hold at every call of [dropPoorFeatures] on a loaded table. *)
Lemma dropPoorFeatures_valid (axis : Z) (p : Q) (df df' : DataFrame cell)
    (removed : list cell) :
  valid df → dropPoorFeatures axis p df = Ok (df', removed) → valid df'.
Proof.
  intros Hvalid. unfold dropPoorFeatures.
  destruct (drop _ axis df) as [d |] eqn:Hdrop; [| done].
  cbn. intros [= <- _]. by eapply drop_valid.
Qed.

(** ** Loading *)

Section Loading.

Variable parse_number : string → option Q.

Lemma getitem_locs_raises (names : list string) (labels : list cell) e :
  getitem_locs names labels = Raise e → ∃ n, n ∈ names ∧ e = KeyError n.
Proof.
  induction names as [| n names IH]; [done |]. cbn.
  destruct (get_locs (Text n) labels) as [| j js].
  - intros [= <-]. exists n. split; [left | done].
  - destruct (getitem_locs names labels) as [rest | e']; [done |].
    cbn. intros [= <-]. destruct (IH eq_refl) as (m & Hm & ->).
    exists m. split; [by right | done].
Qed.

Lemma getitem_raises (names : list string) (df : DataFrame cell) e :
  getitem names df = Raise e → ∃ n, e = KeyError n.
Proof.
  unfold getitem.
  destruct (getitem_locs names (columns df)) as [js | e'] eqn:Hlocs; [done |].
  intros [= <-]. apply getitem_locs_raises in Hlocs as (n & _ & ->). eauto.
Qed.

Lemma set_index_verified (raw : DataFrame cell) :
  match set_index "Country Code" true raw with
  | Ok d => ∃ j, get_loc (Text "Country Code") (columns raw) = Some j ∧
                 NoDup (column j (values raw))
  | Raise e =>
      (e = KeyError "Country Code" ∧
       get_loc (Text "Country Code") (columns raw) = None) ∨
      (e = DuplicateKeyError ∧
       ∃ j, get_loc (Text "Country Code") (columns raw) = Some j ∧
            ¬ NoDup (column j (values raw)))
  end.
Proof.
  unfold set_index.
  destruct (get_loc (Text "Country Code") (columns raw)) as [j |];
    [| by left].
  destruct (decide (NoDup (column j (values raw)))) as [Hnd | Hnd].
  - rewrite bool_decide_eq_true_2 by done. cbn. eauto.
  - rewrite bool_decide_eq_false_2 by done. cbn. right. eauto.
Qed.

(** X7. Loading raises the duplicate-key error exactly when the column of
    identifiers exists and holds some identifier twice. *)
Lemma init_duplicate_key_iff (raw : DataFrame cell)
    (varlist : option (list string)) :
  init parse_number raw varlist = Raise DuplicateKeyError ↔
  ∃ j, get_loc (Text "Country Code") (columns raw) = Some j ∧
       ¬ NoDup (column j (values raw)).
Proof.
  unfold init. pose proof (set_index_verified raw) as Hset.
  destruct (set_index "Country Code" true raw) as [d | e];
    cbn [mbind result_bind].
  - destruct Hset as (j & Hj & Hnd). split.
    + intros Hraise. exfalso.
      destruct varlist as [[| v vs] |]; cbn [mbind result_bind] in Hraise;
        try done.
      destruct (getitem ("Country Name" :: v :: vs) d) as [d' | e] eqn:Hget;
        [done |].
      injection Hraise as ->. by apply getitem_raises in Hget as [n ?].
    + intros (j' & Hj' & Hdup). congruence.
  - destruct Hset as [[-> Hnone] | [-> Hdup]].
    + split; [done |]. intros (j & Hj & _). congruence.
    + done.
Qed.

(** Conversion never leaves text behind and never raises. *)
Lemma to_numeric_not_text (c : cell) (t : string) :
  to_numeric parse_number c ≠ Text t.
Proof. destruct c as [u | q |]; cbn; [by destruct (parse_number u) | done..]. Qed.

(** A loaded table is the selected table with every field after the first
    converted; no text in those fields makes loading fail. *)
Lemma init_converts_after_first (raw : DataFrame cell)
    (varlist : option (list string)) (df : DataFrame cell) :
  init parse_number raw varlist = Ok df →
  Forall (λ row, Forall (λ c, ∀ t, c ≠ Text t) (tail row)) (values df).
Proof.
  unfold init. destruct (set_index _ _ raw) as [d |]; [| done].
  cbn [mbind result_bind].
  match goal with
  | |- context [mbind _ ?r] => destruct r as [d' |]; [| done]
  end.
  cbn. intros [= <-]. cbn. apply Forall_fmap, Forall_true.
  intros [| c rest]; cbn; [done |].
  apply Forall_fmap, Forall_true. intros x t. cbn. apply to_numeric_not_text.
Qed.

(** With a field subset, the display name is asked for first, so it is the
    field that conversion skips. *)
Lemma init_with_varlist_name_first (raw : DataFrame cell) (v : string)
    (vs : list string) (df : DataFrame cell) :
  init parse_number raw (Some (v :: vs)) = Ok df →
  head (columns df) = Some (Text "Country Name").
Proof.
  unfold init. destruct (set_index _ _ raw) as [d |]; [| done]. cbn.
  unfold getitem. cbn.
  destruct (get_locs (Text "Country Name") (columns d)) as [| j js] eqn:Hlocs;
    [done |].
  destruct (match get_locs (Text v) (columns d) with
            | [] => Raise (KeyError v)
            | _ => _
            end) as [rest |]; [| done].
  cbn. intros [= <-]. cbn.
  assert (Hj : j ∈ get_locs (Text "Country Name") (columns d))
    by (rewrite Hlocs; left).
  clear Hlocs. f_equal. revert j Hj.
  generalize (columns d). intros l. induction l as [| x l IH]; intros j Hj.
  - by apply elem_of_nil in Hj.
  - cbn in Hj. apply elem_of_app in Hj as [Hj | Hj].
    + destruct (decide (x = Text "Country Name")) as [-> |];
        [| by apply elem_of_nil in Hj].
      apply list_elem_of_singleton in Hj as ->. done.
    + apply list_elem_of_fmap in Hj as (j' & -> & Hj'). cbn. by apply IH.
Qed.

End Loading.

(** C7 (defect). Conversion skips the first field of the table, whatever
    it is.  When the file lists an indicator before the display name and no
    field subset is asked for, the indicator keeps its text and the display
    names are the ones coerced to missing. *)
Theorem init_name_last_not_converted :
  init Sample.sample_parse Sample.name_last None
  = Ok {| index := [Text "ITA"; Text "FRA"];
          columns := [Text "GDP"; Text "Country Name"];
          values := [[Text "12"; NaN]; [Text ".."; NaN]] |}.
Proof. reflexivity. Qed.

End PreprocessingFacts.

(** * Properties of [Clustering] *)

Module ClusteringFacts.
Import Clustering Notions.

Section WithLibrary.

Context `{Library}.

Lemma bind_run {A B} (m : M A) (k : A → M B) (s : Session) :
  (m ≫= k) s = match m s with
               | (Ok a, s') => k a s'
               | (Raise e, s') => (Raise e, s')
               end.
Proof. reflexivity. Qed.

(** ** What a method leaves as it was *)

Section Preserve.

Variable R : relation Session.
Context `{!PreOrder R}.

Lemma preserves_ret {A} (a : A) : preserves R (mret a).
Proof. intros s. reflexivity. Qed.

Lemma preserves_bind {A B} (m : M A) (k : A → M B) :
  preserves R m → (∀ a, preserves R (k a)) → preserves R (m ≫= k).
Proof.
  intros Hm Hk s. rewrite bind_run. specialize (Hm s).
  destruct (m s) as [[a | e] s']; cbn in *; [| done].
  by etransitivity; [| apply Hk].
Qed.

Lemma preserves_lift {A} (r : result A) : preserves R (lift r).
Proof. intros s. reflexivity. Qed.

Lemma preserves_gets {A} (f : Session → A) : preserves R (gets f).
Proof. intros s. reflexivity. Qed.

Lemma preserves_modify (f : Session → Session) :
  (∀ s, R s (f s)) → preserves R (modify f).
Proof. intros Hf s. apply Hf. Qed.

Lemma preserves_for_each {A} (l : list A) (body : A → M unit) :
  (∀ x, x ∈ l → preserves R (body x)) → preserves R (for_each l body).
Proof.
  induction l as [| x l IH]; intros Hbody; cbn [for_each].
  - apply preserves_ret.
  - apply preserves_bind; [apply Hbody; left |].
    intros _. apply IH. intros y Hy. apply Hbody. by right.
Qed.

Lemma preserves_for_fold {A S} (l : list A) (body : A → S → M S) (acc : S) :
  (∀ x a, x ∈ l → preserves R (body x a)) → preserves R (for_fold l body acc).
Proof.
  revert acc. induction l as [| x l IH]; intros acc Hbody; cbn [for_fold].
  - apply preserves_ret.
  - apply preserves_bind; [apply Hbody; left |].
    intros acc'. apply IH. intros y a Hy. apply Hbody. by right.
Qed.

Lemma preserves_comprehension {A B} (l : list A) (f : A → M B) :
  (∀ x, x ∈ l → preserves R (f x)) → preserves R (comprehension l f).
Proof.
  induction l as [| x l IH]; intros Hf; cbn [comprehension].
  - apply preserves_ret.
  - apply preserves_bind; [apply Hf; left |]. intros y.
    apply preserves_bind; [| intros ys; apply preserves_ret].
    apply IH. intros z Hz. apply Hf. by right.
Qed.

Lemma preserves_select_features (on_PC : Z) :
  preserves R (select_features on_PC).
Proof.
  intros s. unfold select_features.
  destruct (decide (0 < on_PC)); [destruct (df_pc s) |]; reflexivity.
Qed.

(** The attributes that the clustering methods write besides the results:
    the generator, the last linkage, the least criterion. *)
Hypothesis R_np_random : ∀ g s, R s (set_np_random g s).
Hypothesis R_link : ∀ l s, R s (set_link l s).
Hypothesis R_min_BIC : ∀ b s, R s (set_min_BIC b s).

Lemma preserves_draw {A} (f : rng_state → result A * rng_state) :
  preserves R (draw f).
Proof.
  intros s. unfold draw. destruct (f (np_random s)) as [r g]. apply R_np_random.
Qed.

Lemma preserves_seed (n : Z) : preserves R (seed n).
Proof. apply preserves_modify, R_np_random. Qed.

Lemma preserves_benchClustering (labels : list Z) (d : DataFrame Q) :
  preserves R (benchClustering labels d).
Proof.
  unfold benchClustering.
  repeat first [apply preserves_bind; [| intros ?] | apply preserves_lift
               | apply preserves_ret].
Qed.

Lemma preserves_store (name : string) (labels : list Z) :
  (∀ t s, R s (set_clustering name t s)) → preserves R (store name labels).
Proof.
  intros Hname. unfold store.
  apply preserves_bind; [apply preserves_gets | intros names].
  apply preserves_bind; [apply preserves_lift | intros t].
  apply preserves_modify, Hname.
Qed.

Lemma preserves_void {A} (m : M A) : preserves R m → preserves R (void m).
Proof.
  intros Hm. unfold void.
  apply preserves_bind; [done | intros ?; apply preserves_ret].
Qed.

Lemma preserves_exec_on (c : call) (d : DataFrame Q) :
  c ≠ GetPC →
  (∀ name, name ∈ run_names c → ∀ t s, R s (set_clustering name t s)) →
  preserves R (exec_on c d).
Proof.
  intros Hc Hnames. destruct c; [done | ..]; cbn [exec_on run_names] in *.
  - unfold hierarchicalClustering_on. apply preserves_for_each. intros met Hmet.
    apply preserves_bind; [apply preserves_lift | intros links].
    apply preserves_bind; [apply preserves_modify, R_link | intros _].
    apply preserves_bind; [apply preserves_lift | intros labels].
    apply preserves_store, Hnames, list_elem_of_fmap. eauto.
  - unfold hdbscan_on.
    apply preserves_bind; [apply preserves_lift | intros labels].
    apply preserves_store, Hnames. left.
  - unfold bayesianGaussianMixture_on.
    apply preserves_bind; [apply preserves_draw | intros labels].
    apply preserves_store, Hnames. left.
  - unfold gaussianMixture_on.
    apply preserves_bind; [apply preserves_draw | intros labels].
    apply preserves_store, Hnames. left.
  - unfold gmBIC_on.
    apply preserves_bind; [| intros bics].
    { apply preserves_comprehension. intros n _. apply preserves_draw. }
    apply preserves_bind; [apply preserves_lift | intros i].
    apply preserves_bind; [apply preserves_lift | intros b].
    apply preserves_modify, R_min_BIC.
  - unfold kmeans_on.
    apply preserves_bind; [apply preserves_seed | intros _].
    apply preserves_bind; [apply preserves_draw | intros labels].
    apply preserves_bind; [apply preserves_store, Hnames; left | intros _].
    destruct evaluate; [| apply preserves_ret].
    apply preserves_bind; [apply preserves_benchClustering | intros _].
    apply preserves_ret.
  - apply preserves_void. unfold multipleKmeans_on.
    apply preserves_bind; [apply preserves_lift | intros silh].
    apply preserves_bind; [apply preserves_lift | intros cal_har].
    apply preserves_for_fold. intros k acc Hk. unfold multipleKmeans_step.
    apply preserves_bind; [apply preserves_seed | intros _].
    apply preserves_bind; [apply preserves_draw | intros labels].
    apply preserves_bind; [| intros _].
    { apply preserves_store, Hnames, list_elem_of_fmap. eauto. }
    apply preserves_bind; [apply preserves_lift | intros sv].
    apply preserves_bind; [apply preserves_lift | intros cv].
    apply preserves_ret.
Qed.

End Preserve.

(** ** The relations that the clustering methods respect *)

#[local] Instance same_data_preorder : PreOrder same_data.
Proof.
  split.
  - by intros s.
  - intros s1 s2 s3 (? & ? & ?) (? & ? & ?). repeat split; congruence.
Qed.

#[local] Instance still_no_scores_preorder : PreOrder still_no_scores.
Proof.
  split.
  - intros s Hnone. exact Hnone.
  - intros s1 s2 s3 H12 H23 Hnone. by apply H23, H12.
Qed.

#[local] Instance same_results_except_preorder (names : list string) :
  PreOrder (same_results_except names).
Proof.
  split.
  - intros s name _. reflexivity.
  - intros s1 s2 s3 H12 H23 name Hname.
    by rewrite (H23 name Hname), (H12 name Hname).
Qed.

Lemma exec_select (c : call) (k : Z) (s : Session) :
  on_PC_of c = Some k → exec c s = (select_features k ≫= exec_on c) s.
Proof.
  destruct c; intros [= <-]; try reflexivity.
  cbn [exec exec_on]. unfold void, multipleKmeans. rewrite !bind_run.
  by destruct (select_features on_PC s) as [[d | e] s'].
Qed.

Lemma on_PC_of_clustering (c : call) : c ≠ GetPC → ∃ k, on_PC_of c = Some k.
Proof. destruct c; [done | cbn; eauto ..]. Qed.

Lemma preserves_exec (R : relation Session) `{!PreOrder R} (c : call) :
  (∀ g s, R s (set_np_random g s)) →
  (∀ l s, R s (set_link l s)) →
  (∀ b s, R s (set_min_BIC b s)) →
  (∀ name, name ∈ run_names c → ∀ t s, R s (set_clustering name t s)) →
  c ≠ GetPC →
  preserves R (exec c).
Proof.
  intros Hg Hl Hb Hn Hc s.
  destruct (on_PC_of_clustering c Hc) as [k Hk]. rewrite (exec_select c k s Hk).
  apply (preserves_bind R (select_features k) (exec_on c)).
  - by apply preserves_select_features.
  - intros d. by apply preserves_exec_on.
Qed.

Lemma preserves_getPC (R : relation Session) `{!PreOrder R} :
  (∀ g s, R s (set_np_random g s)) →
  (∀ e s, R s (set_pca e s)) →
  (∀ pc s, R s (set_df_pc pc s)) →
  preserves R getPC.
Proof.
  intros Hg He Hpc. unfold getPC.
  apply preserves_bind; [done | by apply preserves_modify |]. intros _.
  apply preserves_bind; [done | by apply preserves_gets |]. intros d.
  apply preserves_bind; [done | by apply preserves_draw |].
  intros [scores ratios].
  apply preserves_bind; [done | by apply preserves_modify |]. intros _.
  by apply preserves_modify.
Qed.

(** A clustering method reads the table, the names and the scores, and
    writes none of them. *)
Lemma exec_same_data (c : call) : c ≠ GetPC → preserves same_data (exec c).
Proof.
  intros Hc. apply preserves_exec; [apply _ | ..]; try done;
    intros; by repeat split.
Qed.

Lemma exec_still_no_scores (c : call) :
  c ≠ GetPC → preserves still_no_scores (exec c).
Proof.
  intros Hc. apply preserves_exec; [apply _ | ..]; try done;
    intros; intros Hnone; exact Hnone.
Qed.

Lemma exec_same_results_except (c : call) :
  preserves (same_results_except (run_names c)) (exec c).
Proof.
  assert (c = GetPC ∨ c ≠ GetPC) as [-> | Hc]
    by (destruct c; [by left | by right ..]).
  - apply preserves_getPC; [apply _ | ..]; by intros.
  - apply preserves_exec; [apply _ | ..]; try done; try (by intros).
    intros name Hname t s name' Hname'. cbn.
    apply lookup_insert_ne. congruence.
Qed.

Lemma run_snoc (cs : list call) (c : call) (s : Session) :
  run (cs ++ [c]) s = (exec c (run cs s)).2.
Proof. unfold run. by rewrite foldl_app. Qed.

Lemma run_still_no_scores (cs : list call) (s : Session) :
  Forall (λ c, c ≠ GetPC) cs → df_pc s = None → df_pc (run cs s) = None.
Proof.
  intros Hcs Hnone. revert s Hnone.
  induction Hcs as [| c cs Hc _ IH]; intros s Hnone; [done |].
  apply IH. by apply (exec_still_no_scores c Hc s).
Qed.

Lemma run_same_results_except (cs : list call) (s : Session) :
  same_results_except (concat (run_names <$> cs)) s (run cs s).
Proof.
  revert s. induction cs as [| c cs IH]; intros s name Hname; [done |].
  cbn in Hname. apply not_elem_of_app in Hname as [Hc Hcs].
  change (run (c :: cs) s) with (run cs (exec c s).2).
  rewrite (IH _ name Hcs). by apply exec_same_results_except.
Qed.

Lemma init_no_scores (raw : DataFrame cell) (g : rng_state) (s : Session) :
  init raw g = Ok s → df_pc s = None.
Proof.
  unfold init.
  repeat match goal with
         | |- context [mbind _ ?r] =>
             destruct r as [? | ?]; cbn [mbind result_bind]; [| done]
         end.
  by intros [= <-].
Qed.



(** C3. In a session built by [init] on which [getPC] has not been called,
    whatever clustering calls came before, a clustering call that asks
    for a projection ([0 < on_PC]) raises the precompute error, and leaves
    the session as it was. *)
Theorem projection_before_getPC_fails (raw : DataFrame cell) (g : rng_state)
    (s0 : Session) (cs : list call) (c : call) (k : Z) :
  init raw g = Ok s0 →
  Forall (λ c', c' ≠ GetPC) cs →
  on_PC_of c = Some k →
  0 < k →
  exec c (run cs s0) = (Raise PrecomputeRequiredError, run cs s0).
Proof.
  intros Hinit Hcs Hc Hk.
  pose proof (run_still_no_scores cs s0 Hcs (init_no_scores _ _ _ Hinit))
    as Hnone.
  rewrite (exec_select c k _ Hc), bind_run.
  unfold select_features. by rewrite decide_True, Hnone.
Qed.

(** C9. A call changes no result stored under a name that is not one of
    its own; so a series of calls leaves alone every name that none of
    them writes; and [gmBIC] leaves the whole collection as it was. *)
Theorem results_written_under_own_names (s : Session) :
  (∀ c name, name ∉ run_names c →
     clusterings (exec c s).2 !! name = clusterings s !! name) ∧
  (∀ cs name, name ∉ concat (run_names <$> cs) →
     clusterings (run cs s) !! name = clusterings s !! name) ∧
  (∀ n_min n_max covariance_type n_init on_PC,
     clusterings (gmBIC n_min n_max covariance_type n_init on_PC s).2
     = clusterings s).
Proof.
  split; [| split].
  - intros c name Hname. by apply exec_same_results_except.
  - intros cs name Hname. by apply run_same_results_except.
  - intros n_min n_max cov n_init on_PC. apply map_eq. intros name.
    apply (exec_same_results_except (GmBIC n_min n_max cov n_init on_PC) s).
    apply not_elem_of_nil.
Qed.

(** ** [clustersTable] *)

Section SortedByKey.

Context {B : Type}.

Lemma insert_by_key_Permutation (x : Z * B) (l : list (Z * B)) :
  insert_by_key x l ≡ₚ x :: l.
Proof.
  induction l as [| y l IH]; [done |]. cbn.
  destruct (decide (x.1 ≤ y.1)); [done |].
  rewrite IH. apply Permutation_swap.
Qed.

Lemma sorted_by_key_Permutation (l : list (Z * B)) : sorted_by_key l ≡ₚ l.
Proof.
  induction l as [| x l IH]; [done |].
  change (sorted_by_key (x :: l)) with (insert_by_key x (sorted_by_key l)).
  by rewrite insert_by_key_Permutation, IH.
Qed.

(** The sort is stable: the pairs of one key come out in the order they
    came in. *)
Lemma insert_by_key_filter (x : Z * B) (l : list (Z * B)) (k : Z) :
  filter (λ y, y.1 = k) (insert_by_key x l) = filter (λ y, y.1 = k) (x :: l).
Proof.
  induction l as [| y l IH]; [done |]. cbn.
  destruct (decide (x.1 ≤ y.1)) as [Hle | Hgt]; [done |].
  rewrite filter_cons, IH, !filter_cons.
  destruct (decide (y.1 = k)), (decide (x.1 = k)); try done. lia.
Qed.

Lemma sorted_by_key_filter (l : list (Z * B)) (k : Z) :
  filter (λ y, y.1 = k) (sorted_by_key l) = filter (λ y, y.1 = k) l.
Proof.
  induction l as [| x l IH]; [done |].
  change (sorted_by_key (x :: l)) with (insert_by_key x (sorted_by_key l)).
  by rewrite insert_by_key_filter, !filter_cons, IH.
Qed.

Lemma insert_by_key_sorted (x : Z * B) (l : list (Z * B)) :
  StronglySorted (λ a b, a.1 ≤ b.1) l →
  StronglySorted (λ a b, a.1 ≤ b.1) (insert_by_key x l).
Proof.
  induction 1 as [| y l Hl IH Hy]; cbn.
  - repeat constructor.
  - destruct (decide (x.1 ≤ y.1)) as [Hle | Hgt].
    + constructor; [by constructor |]. constructor; [done |].
      eapply Forall_impl; [exact Hy |]. intros z Hz. cbn in *. lia.
    + constructor; [done |].
      rewrite insert_by_key_Permutation. constructor; [lia | done].
Qed.

Lemma sorted_by_key_sorted (l : list (Z * B)) :
  StronglySorted (λ a b, a.1 ≤ b.1) (sorted_by_key l).
Proof.
  induction l as [| x l IH]; [constructor |].
  change (sorted_by_key (x :: l)) with (insert_by_key x (sorted_by_key l)).
  by apply insert_by_key_sorted.
Qed.

(** Splitting a list by the keys of a duplicate-free list that holds them
    all loses and repeats nothing. *)
Lemma concat_groups (groups : list Z) (l : list (Z * B)) :
  NoDup groups →
  (∀ y, y ∈ l → y.1 ∈ groups) →
  concat ((λ x, filter (λ y, y.1 = x) l) <$> groups) ≡ₚ l.
Proof.
  intros Hnd. revert l. induction Hnd as [| g groups Hg Hnd IH]; intros l Hl.
  - destruct l as [| y l]; [done |].
    specialize (Hl y ltac:(left)). by apply elem_of_nil in Hl.
  - cbn [fmap list_fmap concat].
    assert (Hrest : (λ x, filter (λ y, y.1 = x) l) <$> groups
                    = (λ x, filter (λ y, y.1 = x) (filter (λ y, y.1 ≠ g) l))
                      <$> groups).
    { apply list_fmap_ext. intros _ x Hx%list_elem_of_lookup_2.
      rewrite list_filter_filter. apply list_filter_iff. intros y.
      split; [| tauto]. intros Hy. split; [done |].
      intros Heq. apply Hg. by rewrite <- Heq, Hy. }
    rewrite Hrest, IH.
    + clear. induction l as [| y l IHl]; [done |].
      rewrite !filter_cons.
      destruct (decide (y.1 = g)), (decide (y.1 ≠ g)); try done; cbn.
      * by rewrite IHl.
      * by rewrite <- Permutation_middle, IHl.
    + intros y [Hne Hy]%list_elem_of_filter.
      specialize (Hl y Hy). apply elem_of_cons in Hl as [? | ?]; done.
Qed.

End SortedByKey.

Lemma zip_fmap_diag {A B} (f : A → B) (l : list A) :
  zip l (f <$> l) = (λ x, (x, f x)) <$> l.
Proof. induction l as [| x l IH]; [done |]. cbn. by rewrite IH. Qed.

Section Partition.

Variable iter : list Z → list Z.
Context `{!SetLaws iter}.

(** X12. Whatever the order in which the set of labels is iterated, the table
    of [clustersTable] has one line per distinct label, each line lists the
    names of that label in the order of the index, and the lines together
    hold every name exactly once. *)
Lemma clustersTable_partition (names : list cell) (labels : list Z)
    (t : Table) :
  length labels = length names →
  clustersTable iter names labels = Ok t →
  NoDup t.*1 ∧
  (∀ x, x ∈ t.*1 ↔ x ∈ labels) ∧
  (∀ x members, (x, members) ∈ t →
     members = (filter (λ y, y.1 = x) (zip labels names)).*2) ∧
  concat t.*2 ≡ₚ names.
Proof.
  intros Hlen. unfold clustersTable.
  set (lis := sorted_by_key (zip labels names)).
  set (groups := iter lis.*1).
  rewrite zip_fmap_diag.
  destruct (_ <$> groups) as [| line rest] eqn:Htable; [done |].
  intros [= <-]. rewrite <- Htable. clear Htable line rest.
  assert (Hkeys : lis.*1 ≡ₚ labels).
  { unfold lis. rewrite sorted_by_key_Permutation.
    by rewrite fst_zip by lia. }
  assert (Hfst : ((λ x, (x, (filter (λ y, y.1 = x) lis).*2)) <$> groups).*1
                 = groups).
  { rewrite <- list_fmap_compose. apply list_fmap_id. }
  rewrite Hfst. split; [apply set_iter_NoDup |]. split.
  { intros x. unfold groups. by rewrite set_iter_elem_of, Hkeys. }
  split.
  { intros x members (y & [= -> ->] & _)%list_elem_of_fmap.
    unfold lis. by rewrite sorted_by_key_filter. }
  rewrite <- list_fmap_compose.
  transitivity ((concat ((λ x, filter (λ y, y.1 = x) lis) <$> groups)).*2).
  { match goal with |- ?a ≡ₚ ?b => assert (Heq : a = b); [| by rewrite Heq] end.
    generalize groups. intros gs. induction gs as [| g gs IH]; [done |].
    cbn. by rewrite fmap_app, <- IH. }
  rewrite concat_groups.
  - unfold lis. rewrite sorted_by_key_Permutation.
    by rewrite snd_zip by lia.
  - apply set_iter_NoDup.
  - intros y Hy. unfold groups. apply set_iter_elem_of.
    apply list_elem_of_fmap. eauto.
Qed.

(** The labels of the table are those of the set, in its order: they are
    ascending exactly when the set is iterated in ascending order. *)
Lemma clustersTable_label_order (names : list cell) (labels : list Z)
    (t : Table) :
  clustersTable iter names labels = Ok t →
  t.*1 = iter (sorted_by_key (zip labels names)).*1.
Proof.
  unfold clustersTable. rewrite zip_fmap_diag.
  destruct (_ <$> iter _) as [| line rest] eqn:Htable; [done |].
  intros [= <-]. rewrite <- Htable, <- list_fmap_compose.
  apply list_fmap_id.
Qed.

End Partition.

(** ** [gmBIC] *)

Lemma np_min_from_le (best : Q) (l : list Q) :
  (np_min_from best l <= best)%Q ∧ Forall (λ x, (np_min_from best l <= x)%Q) l.
Proof.
  revert best. induction l as [| x l IH]; intros best; cbn.
  - split; [apply Qle_refl | constructor].
  - destruct (decide (x < best)%Q) as [Hlt | Hge].
    + destruct (IH x) as [Hx Hl]. split; [| by constructor].
      eapply Qle_trans; [exact Hx | by apply Qlt_le_weak].
    + destruct (IH best) as [Hb Hl]. split; [done |]. constructor; [| done].
      eapply Qle_trans; [exact Hb |]. by apply Qnot_lt_le.
Qed.

(** [np_argmin_from] returns the first position of the least entry: either
    the entry met so far stays the least, or a later entry is strictly
    below it and below everything that precedes it. *)
Lemma np_argmin_from_spec (best : Q) (ibest i : nat) (l : list Q) :
  let r := np_argmin_from best ibest i l in
  let m := np_min_from best l in
  (r = ibest ∧ m = best) ∨
  (∃ j, r = (i + j)%nat ∧ l !! j = Some m ∧ (m < best)%Q ∧
        ∀ j' x, (j' < j)%nat → l !! j' = Some x → (m < x)%Q).
Proof.
  revert best ibest i. induction l as [| x l IH]; intros best ibest i; cbn.
  - by left.
  - destruct (decide (x < best)%Q) as [Hlt | Hge].
    + right. destruct (IH x i (S i)) as [[-> ->] | (j & -> & Hj & Hm & Hfirst)].
      * exists 0%nat. split; [lia |]. split; [done |]. split; [done |].
        intros j' y Hj'. lia.
      * exists (S j). split; [lia |]. split; [done |].
        split; [by eapply Qlt_trans |].
        intros [| j'] y Hj' Hy; cbn in Hy.
        -- by injection Hy as <-.
        -- eapply Hfirst; [| done]. lia.
    + destruct (IH best ibest (S i)) as [[-> ->] | (j & -> & Hj & Hm & Hfirst)].
      * by left.
      * right. exists (S j). split; [lia |]. split; [done |]. split; [done |].
        intros [| j'] y Hj' Hy; cbn in Hy.
        -- injection Hy as <-. eapply Qlt_le_trans; [exact Hm |].
           by apply Qnot_lt_le.
        -- eapply Hfirst; [| done]. lia.
Qed.

(** The position and the value that [gmBIC] reads off the criteria. *)
Lemma np_argmin_first_least (bics : list Q) (i : nat) (b : Q) :
  np_argmin bics = Ok i → np_min bics = Ok b →
  bics !! i = Some b ∧
  (∀ j x, bics !! j = Some x → (b <= x)%Q) ∧
  (∀ j x, (j < i)%nat → bics !! j = Some x → (b < x)%Q).
Proof.
  destruct bics as [| x l]; [done |]. cbn. intros [= <-] [= <-].
  destruct (np_min_from_le x l) as [Hx Hl]. rewrite Forall_lookup in Hl.
  destruct (np_argmin_from_spec x 0 1 l)
    as [[Hr Hm] | (j & Hr & Hj & Hm & Hfirst)]; rewrite Hr.
  - split; [by rewrite Hm |]. split.
    + intros [| j] y Hy; cbn in Hy; [by injection Hy as <- | by eapply Hl].
    + intros j y Hj. lia.
  - split; [done |]. split.
    + intros [| j'] y Hy; cbn in Hy; [by injection Hy as <- | by eapply Hl].
    + intros [| j'] y Hj' Hy; cbn in Hy; [by injection Hy as <- |].
      eapply Hfirst; [| done]. lia.
Qed.

(** The list comprehension of [gmBIC] fits one mixture for each count, in
    turn; when every fit succeeds it yields one criterion per count. *)
Lemma comprehension_fit_bic (d : DataFrame Q) (cov : string) (n_init : Z)
    (ns : list Z) (s : Session) :
  (∀ g n, n ∈ ns → ∃ b, (GaussianMixture_fit_bic g n cov n_init d).1 = Ok b) →
  ∃ bics s',
    comprehension ns
      (λ n, draw (λ g, GaussianMixture_fit_bic g n cov n_init d)) s
    = (Ok bics, s') ∧
    Forall2 (λ n b, ∃ g, (GaussianMixture_fit_bic g n cov n_init d).1 = Ok b)
            ns bics.
Proof.
  revert s. induction ns as [| n ns IH]; intros s Hfit.
  - exists [], s. split; [done | constructor].
  - destruct (Hfit (np_random s) n) as [b Hb]; [left |].
    destruct (IH (set_np_random
                    (GaussianMixture_fit_bic (np_random s) n cov n_init d).2 s))
      as (bics & s' & Hrest & Hall).
    { intros g m Hm. apply Hfit. by right. }
    exists (b :: bics), s'. split; [| constructor; eauto].
    cbn [comprehension]. rewrite bind_run. unfold draw at 1.
    destruct (GaussianMixture_fit_bic (np_random s) n cov n_init d) as [r g].
    cbn in Hb, Hrest. subst r. by rewrite bind_run, Hrest.
Qed.

(** What [gmBIC] records when every fit succeeds: the least criterion, and
    one more than its first position among the criteria of the range. *)
Lemma gmBIC_on_records (d : DataFrame Q) (n_min n_max : Z) (cov : string)
    (n_init : Z) (s : Session) :
  n_min < n_max →
  (∀ g n, n_min ≤ n < n_max →
          ∃ b, (GaussianMixture_fit_bic g n cov n_init d).1 = Ok b) →
  ∃ bics i b s',
    gmBIC_on d n_min n_max cov n_init s = (Ok tt, s') ∧
    min_BIC s' = Some (Z.of_nat i + 1, b) ∧
    Forall2 (λ n x, ∃ g, (GaussianMixture_fit_bic g n cov n_init d).1 = Ok x)
            (arange n_min n_max) bics ∧
    arange n_min n_max !! i = Some (n_min + Z.of_nat i) ∧
    bics !! i = Some b ∧
    (∀ j x, bics !! j = Some x → (b <= x)%Q) ∧
    (∀ j x, (j < i)%nat → bics !! j = Some x → (b < x)%Q).
Proof.
  intros Hrange Hfit.
  destruct (comprehension_fit_bic d cov n_init (arange n_min n_max) s)
    as (bics & s' & Hrun & Hall).
  { intros g n Hn. apply Hfit. unfold arange in Hn.
    apply elem_of_seqZ in Hn. lia. }
  assert (Hlen : length bics = Z.to_nat (n_max - n_min)).
  { rewrite <- (Forall2_length _ _ _ Hall). unfold arange. apply length_seqZ. }
  destruct bics as [| x l] eqn:Hbics; [cbn in Hlen; lia |]. rewrite <- Hbics in *.
  assert (∃ i, np_argmin bics = Ok i) as [i Hi] by (subst; cbn; eauto).
  assert (∃ b, np_min bics = Ok b) as [b Hb] by (subst; cbn; eauto).
  destruct (np_argmin_first_least bics i b Hi Hb) as (Hat & Hleast & Hfirst).
  exists bics, i, b, (set_min_BIC (Z.of_nat i + 1, b) s').
  split.
  { unfold gmBIC_on. rewrite bind_run, Hrun. unfold lift, modify.
    rewrite !bind_run, Hi. cbn. by rewrite Hb. }
  split; [done |]. split; [done |]. split; [| done].
  unfold arange. apply lookup_seqZ. apply lookup_lt_Some in Hat. lia.
Qed.

(** X24. When the range starts at 1, the recorded count is the count whose
    criterion is the least. *)
Lemma gmBIC_on_from_one (d : DataFrame Q) (n_max : Z) (cov : string)
    (n_init : Z) (s : Session) :
  1 < n_max →
  (∀ g n, 1 ≤ n < n_max →
          ∃ b, (GaussianMixture_fit_bic g n cov n_init d).1 = Ok b) →
  ∃ bics i n b s',
    gmBIC_on d 1 n_max cov n_init s = (Ok tt, s') ∧
    min_BIC s' = Some (n, b) ∧
    Forall2 (λ n x, ∃ g, (GaussianMixture_fit_bic g n cov n_init d).1 = Ok x)
            (arange 1 n_max) bics ∧
    arange 1 n_max !! i = Some n ∧
    bics !! i = Some b ∧
    (∀ j x, bics !! j = Some x → (b <= x)%Q).
Proof.
  intros Hrange Hfit.
  destruct (gmBIC_on_records d 1 n_max cov n_init s Hrange Hfit)
    as (bics & i & b & s' & Hrun & Hrec & Hall & Hat & Hb & Hleast & _).
  exists bics, i, (1 + Z.of_nat i), b, s'.
  rewrite Hrec. repeat split; try done. f_equal. f_equal. lia.
Qed.

(** ** [kmeans] and [multipleKmeans] *)

Lemma kmeans_name_inj (k k' : Z) :
  "kmeans" +:+ str k = "kmeans" +:+ str k' → k = k'.
Proof.
  cbn. intros [= Heq]. change (pretty k = pretty k') in Heq.
  by apply (inj pretty) in Heq.
Qed.

(** Unfold the plumbing of method bodies. *)
Ltac run_body :=
  unfold store, benchClustering, void, seed;
  unfold modify, draw, gets, lift, mbind, M_bind, mret, M_ret;
  cbn -[clustersTable str String.append].

(** [kmeans_on], step by step. *)
Lemma kmeans_on_run (d : DataFrame Q) (n n_init : Z) (ev : bool) (s : Session) :
  kmeans_on d n n_init ev s =
  let fit := KMeans_fit_predict (np_random_seed 42) n n_init d in
  let s1 := set_np_random fit.2 (set_np_random (np_random_seed 42) s) in
  match fit.1 with
  | Raise e => (Raise e, s1)
  | Ok labels =>
      match clustersTable set_iter (country_names s) labels with
      | Raise e => (Raise e, s1)
      | Ok t =>
          let s2 := set_clustering ("kmeans" +:+ str n) t s1 in
          if ev then
            match silhouette_score d labels with
            | Raise e => (Raise e, s2)
            | Ok _ =>
                match calinski_harabaz_score d labels with
                | Raise e => (Raise e, s2)
                | Ok _ => (Ok tt, s2)
                end
            end
          else (Ok tt, s2)
      end
  end.
Proof.
  unfold kmeans_on. run_body.
  destruct (KMeans_fit_predict (np_random_seed 42) n n_init d) as [[labels | e] g];
    cbn -[clustersTable str String.append]; [| done].
  destruct (clustersTable set_iter (country_names s) labels) as [t | e];
    [| done].
  destruct ev; [| done].
  destruct (silhouette_score d labels); [| done].
  by destruct (calinski_harabaz_score d labels).
Qed.

(** What [kmeans_on] does to the results: it stores the table of the
    seeded fit, if there is one. *)
Lemma kmeans_on_results (d : DataFrame Q) (n n_init : Z) (ev : bool)
    (s : Session) :
  same_data s (kmeans_on d n n_init ev s).2 ∧
  clusterings (kmeans_on d n n_init ev s).2
  = stored_tables d (country_names s) n_init [n] (clusterings s).
Proof.
  rewrite kmeans_on_run. unfold stored_tables, kmeans_table, kmeans_labels.
  cbn.
  destruct (KMeans_fit_predict (np_random_seed 42) n n_init d) as [[labels | e] g];
    cbn; [| done].
  destruct (clustersTable set_iter (country_names s) labels) as [t | e];
    cbn; [| done].
  destruct ev; [| done].
  destruct (silhouette_score d labels); cbn; [| done].
  by destruct (calinski_harabaz_score d labels).
Qed.

Lemma select_features_same_data (on_PC : Z) (s s' : Session) :
  same_data s s' →
  (select_features on_PC s').1 = (select_features on_PC s).1 ∧
  (select_features on_PC s').2 = s'.
Proof.
  intros (Hdf & _ & Hpc). unfold select_features. rewrite Hdf, Hpc.
  destruct (decide (0 < on_PC)); [destruct (df_pc s) |]; done.
Qed.

Lemma select_features_session (on_PC : Z) (s : Session) :
  (select_features on_PC s).2 = s.
Proof.
  unfold select_features.
  destruct (decide (0 < on_PC)); [destruct (df_pc s) |]; done.
Qed.

(** The outcome of [kmeans] is a function of the table, the names and the
    scores: the generator and the results do not matter. *)
Lemma kmeans_same_data (n on_PC n_init : Z) (ev : bool) (s s' : Session) :
  same_data s s' →
  (kmeans n on_PC n_init ev s').1 = (kmeans n on_PC n_init ev s).1.
Proof.
  intros Hsame. unfold kmeans. rewrite !bind_run.
  destruct (select_features_same_data on_PC s s' Hsame) as [Hr Hs'].
  pose proof (select_features_session on_PC s) as Hs.
  destruct (select_features on_PC s) as [r s0].
  destruct (select_features on_PC s') as [r' s0'].
  cbn in *. subst. destruct r as [d | e]; [| done].
  rewrite !kmeans_on_run. destruct Hsame as (_ & -> & _). cbn.
  destruct (KMeans_fit_predict (np_random_seed 42) n n_init d) as [[labels | e] g];
    cbn; [| done].
  destruct (clustersTable set_iter (country_names s) labels) as [t | e];
    cbn; [| done].
  destruct ev; [| done].
  destruct (silhouette_score d labels); cbn; [| done].
  by destruct (calinski_harabaz_score d labels).
Qed.

Lemma kmeans_results (n on_PC n_init : Z) (ev : bool) (s : Session) :
  same_data s (kmeans n on_PC n_init ev s).2 ∧
  match (select_features on_PC s).1 with
  | Ok d =>
      clusterings (kmeans n on_PC n_init ev s).2
      = stored_tables d (country_names s) n_init [n] (clusterings s)
  | Raise _ => clusterings (kmeans n on_PC n_init ev s).2 = clusterings s
  end.
Proof.
  unfold kmeans. rewrite bind_run.
  pose proof (select_features_session on_PC s) as Hs.
  destruct (select_features on_PC s) as [[d | e] s0]; cbn in *; subst;
    [| done].
  apply kmeans_on_results.
Qed.

(** C8. Two calls of [kmeans] in a row, with the same arguments: the second
    returns or raises as the first did, and leaves the collection of
    results as the first left it; the table they store is the one fitted
    from the generator as seeded with 42, whatever the generator held
    before the call. *)
Theorem kmeans_repeatable (n on_PC n_init : Z) (ev : bool) (s : Session) :
  let first := kmeans n on_PC n_init ev s in
  let second := kmeans n on_PC n_init ev first.2 in
  second.1 = first.1 ∧
  clusterings second.2 = clusterings first.2 ∧
  (∀ d t, (select_features on_PC s).1 = Ok d →
          kmeans_table d (country_names s) n_init n = Ok t →
          clusterings first.2 !! ("kmeans" +:+ str n) = Some t ∧
          clusterings second.2 !! ("kmeans" +:+ str n) = Some t).
Proof.
  intros first second.
  destruct (kmeans_results n on_PC n_init ev s) as [Hsame Hfirst].
  destruct (kmeans_results n on_PC n_init ev first.2) as [_ Hsecond].
  fold first in Hsame, Hfirst. fold second in Hsecond.
  destruct (select_features_same_data on_PC s first.2 Hsame) as [Hsel _].
  rewrite Hsel in Hsecond. pose proof Hsame as (_ & Hnames & _).
  rewrite Hnames in Hsecond.
  assert (Hcol : clusterings second.2 = clusterings first.2).
  { destruct (select_features on_PC s).1 as [d | e]; [| congruence].
    rewrite Hsecond, Hfirst. unfold stored_tables. cbn.
    destruct (kmeans_table d (country_names s) n_init n); [| done].
    apply insert_insert_eq. }
  split; [exact (kmeans_same_data n on_PC n_init ev s first.2 Hsame) |].
  split; [done |].
  intros d t Hd Ht. rewrite Hcol. rewrite Hd in Hfirst.
  rewrite Hfirst. unfold stored_tables. cbn. rewrite Ht.
  split; apply lookup_insert_eq.
Qed.

Lemma stored_tables_cons (d : DataFrame Q) (names : list cell) (n_init k : Z)
    (ks : list Z) (m : gmap string Table) :
  stored_tables d names n_init (k :: ks) m
  = stored_tables d names n_init ks (stored_tables d names n_init [k] m).
Proof. reflexivity. Qed.

Lemma stored_tables_snoc (d : DataFrame Q) (names : list cell) (n_init k : Z)
    (ks : list Z) (m : gmap string Table) :
  stored_tables d names n_init (ks ++ [k]) m
  = stored_tables d names n_init [k] (stored_tables d names n_init ks m).
Proof. unfold stored_tables. by rewrite foldl_app. Qed.

(** After the tables of [ks] are stored, the name of every [k] of [ks]
    holds the table of [k]. *)
Lemma stored_tables_lookup (d : DataFrame Q) (names : list cell) (n_init : Z)
    (ks : list Z) (m : gmap string Table) (k : Z) (t : Table) :
  k ∈ ks →
  kmeans_table d names n_init k = Ok t →
  stored_tables d names n_init ks m !! ("kmeans" +:+ str k) = Some t.
Proof.
  intros Hk Ht. induction ks as [| x ks IH] using rev_ind.
  - by apply elem_of_nil in Hk.
  - rewrite stored_tables_snoc. unfold stored_tables at 1. cbn [foldl].
    destruct (decide (k = x)) as [<- | Hne].
    + rewrite Ht. apply lookup_insert_eq.
    + assert (Hin : k ∈ ks).
      { apply elem_of_app in Hk as [Hk | Hk]; [done |].
        by apply list_elem_of_singleton in Hk. }
      destruct (kmeans_table d names n_init x); [| by apply IH].
      rewrite lookup_insert_ne; [by apply IH |].
      intros Heq. by apply kmeans_name_inj in Heq.
Qed.

(** One turn of the loop of [multipleKmeans] whose calls all succeed. *)
Lemma multipleKmeans_step_run (d : DataFrame Q) (k_min n_init k : Z)
    (acc : list Q * list Q) (s : Session) (labels : list Z) (t : Table)
    (sv cv : Q) :
  kmeans_labels d n_init k = Ok labels →
  clustersTable set_iter (country_names s) labels = Ok t →
  silhouette_score d labels = Ok sv →
  calinski_harabaz_score d labels = Ok cv →
  ∃ s',
    multipleKmeans_step d k_min n_init k acc s
    = (Ok (<[Z.to_nat (k - k_min) := sv]> acc.1,
           <[Z.to_nat (k - k_min) := cv]> acc.2), s') ∧
    same_data s s' ∧
    clusterings s' = <["kmeans" +:+ str k := t]> (clusterings s).
Proof.
  unfold kmeans_labels, multipleKmeans_step. intros Hfit Ht Hsv Hcv. run_body.
  destruct (KMeans_fit_predict (np_random_seed 42) k n_init d) as [r g].
  cbn in Hfit. subst r. cbn -[clustersTable str String.append].
  rewrite Ht, Hsv, Hcv. eexists. split; [reflexivity |]. done.
Qed.

Lemma multipleKmeans_loop (d : DataFrame Q) (k_min n_init : Z) (ks : list Z)
    (acc : list Q * list Q) (s : Session) :
  (∀ k, k ∈ ks → ∃ labels t sv cv,
      kmeans_labels d n_init k = Ok labels ∧
      clustersTable set_iter (country_names s) labels = Ok t ∧
      silhouette_score d labels = Ok sv ∧
      calinski_harabaz_score d labels = Ok cv) →
  ∃ acc' s',
    for_fold ks (multipleKmeans_step d k_min n_init) acc s = (Ok acc', s') ∧
    same_data s s' ∧
    length acc'.1 = length acc.1 ∧ length acc'.2 = length acc.2 ∧
    clusterings s'
    = stored_tables d (country_names s) n_init ks (clusterings s).
Proof.
  revert acc s. induction ks as [| k ks IH]; intros acc s Hfit.
  - exists acc, s. done.
  - destruct (Hfit k) as (labels & t & sv & cv & Hl & Ht & Hsv & Hcv); [left |].
    destruct (multipleKmeans_step_run d k_min n_init k acc s labels t sv cv
                Hl Ht Hsv Hcv) as (s1 & Hstep & Hsame1 & Hres1).
    pose proof Hsame1 as (_ & Hnames1 & _).
    destruct (IH (<[Z.to_nat (k - k_min) := sv]> acc.1,
                  <[Z.to_nat (k - k_min) := cv]> acc.2) s1)
      as (acc' & s' & Hloop & Hsame & Hlen1 & Hlen2 & Hres).
    { intros k' Hk'. rewrite Hnames1. apply Hfit. by right. }
    exists acc', s'. cbn [for_fold]. rewrite bind_run, Hstep.
    split; [done |]. split; [by etransitivity |].
    cbn [fst snd] in Hlen1, Hlen2. rewrite length_insert in Hlen1, Hlen2.
    split; [done |]. split; [done |].
    assert (Hone : stored_tables d (country_names s) n_init [k] (clusterings s)
                   = <["kmeans" +:+ str k := t]> (clusterings s)).
    { unfold stored_tables, kmeans_table. cbn [foldl]. rewrite Hl. cbn.
      by rewrite Ht. }
    by rewrite Hres, Hnames1, Hres1, stored_tables_cons, Hone.
Qed.

(** A turn of the loop that returns has fitted the labels and put their two
    scores at the position of [k]. *)
Lemma multipleKmeans_step_inv (d : DataFrame Q) (k_min n_init k : Z)
    (acc acc' : list Q * list Q) (s s' : Session) :
  multipleKmeans_step d k_min n_init k acc s = (Ok acc', s') →
  ∃ labels sv cv,
    kmeans_labels d n_init k = Ok labels ∧
    silhouette_score d labels = Ok sv ∧
    calinski_harabaz_score d labels = Ok cv ∧
    acc' = (<[Z.to_nat (k - k_min) := sv]> acc.1,
            <[Z.to_nat (k - k_min) := cv]> acc.2).
Proof.
  unfold kmeans_labels, multipleKmeans_step. run_body.
  destruct (KMeans_fit_predict (np_random_seed 42) k n_init d)
    as [[labels | e] g]; cbn -[clustersTable str String.append]; [| done].
  destruct (clustersTable set_iter (country_names s) labels); [| done].
  destruct (silhouette_score d labels) as [sv |] eqn:Hsv; [| done].
  destruct (calinski_harabaz_score d labels) as [cv |] eqn:Hcv; [| done].
  intros Heq. injection Heq as <- _. by exists labels, sv, cv.
Qed.

(** The arrays that the loop returns hold, at the position of every count,
    the two scores of its labels; the other positions are as they were. *)
Lemma multipleKmeans_loop_scores (d : DataFrame Q) (k_min n_init : Z)
    (ks : list Z) (acc acc' : list Q * list Q) (s s' : Session) :
  for_fold ks (multipleKmeans_step d k_min n_init) acc s = (Ok acc', s') →
  NoDup ks →
  (∀ k, k ∈ ks → k_min ≤ k ∧ (Z.to_nat (k - k_min) < length acc.1)%nat ∧
                 (Z.to_nat (k - k_min) < length acc.2)%nat) →
  (∀ i, (∀ k, k ∈ ks → Z.to_nat (k - k_min) ≠ i) →
        acc'.1 !! i = acc.1 !! i ∧ acc'.2 !! i = acc.2 !! i) ∧
  (∀ k, k ∈ ks → ∃ labels sv cv,
      kmeans_labels d n_init k = Ok labels ∧
      silhouette_score d labels = Ok sv ∧
      calinski_harabaz_score d labels = Ok cv ∧
      acc'.1 !! Z.to_nat (k - k_min) = Some sv ∧
      acc'.2 !! Z.to_nat (k - k_min) = Some cv).
Proof.
  revert acc s. induction ks as [| k ks IH]; intros acc s Hrun Hnd Hpos.
  - cbn in Hrun. injection Hrun as <- _. split; [done |].
    intros k Hk. by apply elem_of_nil in Hk.
  - cbn [for_fold] in Hrun. rewrite bind_run in Hrun.
    destruct (multipleKmeans_step d k_min n_init k acc s)
      as [[acc1 | e] s1] eqn:Hstep; [| done].
    apply multipleKmeans_step_inv in Hstep
      as (labels & sv & cv & Hl & Hsv & Hcv & ->).
    apply NoDup_cons in Hnd as [Hk Hnd].
    destruct (Hpos k ltac:(left)) as (Hge & Hlt1 & Hlt2).
    destruct (IH _ _ Hrun Hnd) as [Hframe Hvals].
    { intros k' Hk'. cbn [fst snd]. rewrite !length_insert.
      apply Hpos. by right. }
    cbn [fst snd] in Hframe. split.
    + intros i Hi. destruct (Hframe i) as [-> ->].
      { intros k' Hk'. apply Hi. by right. }
      specialize (Hi k ltac:(left)).
      by rewrite !list_lookup_insert_ne.
    + intros k' [-> | Hk']%elem_of_cons; [| by apply Hvals].
      exists labels, sv, cv. repeat (split; [done |]).
      destruct (Hframe (Z.to_nat (k - k_min))) as [-> ->].
      { intros k' Hk' Heq. destruct (Hpos k' ltac:(by right)) as (Hge' & _).
        assert (k' = k) as -> by lia. done. }
      by rewrite !list_lookup_insert_eq.
Qed.

(** The results after a series of calls of [kmeans], one for each count. *)
Lemma run_kmeans_results (on_PC n_init : Z) (ev : bool) (ks : list Z)
    (s : Session) (d : DataFrame Q) :
  (select_features on_PC s).1 = Ok d →
  clusterings (run ((λ k, Kmeans k on_PC n_init ev) <$> ks) s)
  = stored_tables d (country_names s) n_init ks (clusterings s).
Proof.
  revert s. induction ks as [| k ks IH]; intros s Hsel; [done |].
  cbn [fmap list_fmap].
  change (run (?c :: ?cs) s) with (run cs (exec c s).2). cbn [exec].
  destruct (kmeans_results k on_PC n_init ev s) as [Hsame Hres].
  rewrite Hsel in Hres.
  destruct (select_features_same_data on_PC s _ Hsame) as [Hsel' _].
  rewrite IH by congruence.
  destruct Hsame as (_ & -> & _). by rewrite Hres, stored_tables_cons.
Qed.

(** C10, as the code has it: [multipleKmeans] on a range
    [k_min < k_max], when the fit, the table and the two scores succeed for
    every count of the range (the first that raises ends the loop): it
    returns the two arrays of scores, which hold at position [k - k_min]
    the scores of the labels fitted for [k], and the results then hold,
    under [kmeans<k>] for every [k] of the range, the table that [kmeans]
    stores for [k]; the collection of results is the one that a call of
    [kmeans] for each [k] of the range, in turn, leaves. *)
Theorem multipleKmeans_stores_every_k (k_min k_max on_PC n_init : Z)
    (s : Session) (d : DataFrame Q) :
  k_min < k_max →
  (select_features on_PC s).1 = Ok d →
  (∀ k, k_min ≤ k < k_max → ∃ labels t sv cv,
      kmeans_labels d n_init k = Ok labels ∧
      clustersTable set_iter (country_names s) labels = Ok t ∧
      silhouette_score d labels = Ok sv ∧
      calinski_harabaz_score d labels = Ok cv) →
  ∃ silh cal_har s',
    multipleKmeans k_min k_max on_PC n_init s = (Ok (silh, cal_har), s') ∧
    length silh = Z.to_nat (k_max - k_min) ∧
    length cal_har = Z.to_nat (k_max - k_min) ∧
    (∀ k, k_min ≤ k < k_max → ∃ labels sv cv,
        kmeans_labels d n_init k = Ok labels ∧
        silhouette_score d labels = Ok sv ∧
        calinski_harabaz_score d labels = Ok cv ∧
        silh !! Z.to_nat (k - k_min) = Some sv ∧
        cal_har !! Z.to_nat (k - k_min) = Some cv) ∧
    (∀ k, k_min ≤ k < k_max → ∃ t,
        kmeans_table d (country_names s) n_init k = Ok t ∧
        clusterings s' !! ("kmeans" +:+ str k) = Some t) ∧
    (∀ ev, clusterings s'
           = clusterings (run ((λ k, Kmeans k on_PC n_init ev) <$>
                               arange k_min k_max) s)).
Proof.
  intros Hrange Hsel Hfit.
  assert (Hin : ∀ k, k ∈ arange k_min k_max ↔ k_min ≤ k < k_max).
  { intros k. unfold arange. rewrite elem_of_seqZ. lia. }
  destruct (multipleKmeans_loop d k_min n_init (arange k_min k_max)
              (replicate (Z.to_nat (k_max - k_min)) 0%Q,
               replicate (Z.to_nat (k_max - k_min)) 0%Q) s)
    as ([silh cal_har] & s' & Hloop & _ & Hlen1 & Hlen2 & Hres).
  { intros k Hk. by apply Hfit, Hin. }
  cbn [fst snd] in Hlen1, Hlen2. rewrite length_replicate in Hlen1, Hlen2.
  exists silh, cal_har, s'.
  split; [| split; [done |]; split; [done |]; split; [| split]].
  - unfold multipleKmeans. rewrite bind_run.
    pose proof (select_features_session on_PC s) as Hs.
    destruct (select_features on_PC s) as [r s0]. cbn in Hsel, Hs. subst.
    unfold multipleKmeans_on, np_zeros. rewrite decide_False by lia.
    by rewrite !bind_run.
  - destruct (multipleKmeans_loop_scores d k_min n_init _ _ _ _ _ Hloop)
      as [_ Hscores].
    + unfold arange. apply NoDup_seqZ.
    + intros k Hk%Hin. cbn [fst snd]. rewrite length_replicate. lia.
    + intros k Hk. by apply Hscores, Hin.
  - intros k Hk. destruct (Hfit k Hk) as (labels & t & _ & _ & Hl & Ht & _).
    exists t.
    assert (Htable : kmeans_table d (country_names s) n_init k = Ok t).
    { unfold kmeans_table. by rewrite Hl. }
    split; [done |]. rewrite Hres.
    apply stored_tables_lookup; [by apply Hin | done].
  - intros ev. by rewrite Hres, (run_kmeans_results on_PC n_init ev _ s d).
Qed.

End WithLibrary.

End ClusteringFacts.

(** * The model at work on the sample session *)

Module Runs.
Import Clustering Notions ClusteringFacts.

Section OnSample.

#[local] Existing Instance Sample.sample_library.


Lemma projection_before_getPC_fails_witness :
  exec (Kmeans 2 1 50 true)
       (run [Kmeans 2 0 50 true; Hdbscan 2 0] Sample.session)
  = (Raise PrecomputeRequiredError,
     run [Kmeans 2 0 50 true; Hdbscan 2 0] Sample.session).
Proof.
  apply (projection_before_getPC_fails
           Sample.cleaned (0 : @rng_state Sample.sample_library) Sample.session
           [Kmeans 2 0 50 true; Hdbscan 2 0] (Kmeans 2 1 50 true) 1).
  - reflexivity.
  - repeat constructor; discriminate.
  - reflexivity.
  - lia.
Defined.

Lemma kmeans_repeatable_witness :
  let first := kmeans 2 0 50 true Sample.session in
  let second := kmeans 2 0 50 true first.2 in
  clusterings first.2 !! "kmeans2"
  = Some [(0, [Text "Italy"; Text "Brazil"]);
          (1, [Text "France"; Text "Argentina"])] ∧
  clusterings second.2 !! "kmeans2"
  = Some [(0, [Text "Italy"; Text "Brazil"]);
          (1, [Text "France"; Text "Argentina"])].
Proof.
  destruct (kmeans_repeatable 2 0 50 true Sample.session) as (_ & _ & Htable).
  apply (Htable (df Sample.session)); reflexivity.
Defined.

Lemma results_written_under_own_names_witness :
  clusterings (exec (Kmeans 3 0 50 true)
                    (run [Kmeans 2 0 50 true] Sample.session)).2 !! "kmeans2"
  = clusterings (run [Kmeans 2 0 50 true] Sample.session) !! "kmeans2".
Proof.
  destruct (results_written_under_own_names
              (run [Kmeans 2 0 50 true] Sample.session)) as (Hcall & _ & _).
  apply Hcall. apply (bool_decide_unpack _). vm_compute. exact I.
Defined.

Lemma multipleKmeans_stores_every_k_witness :
  ∃ silh cal_har s',
    multipleKmeans 2 4 0 50 Sample.session = (Ok (silh, cal_har), s') ∧
    length silh = Z.to_nat (4 - 2) ∧
    length cal_har = Z.to_nat (4 - 2) ∧
    (∀ k, 2 ≤ k < 4 → ∃ labels sv cv,
        kmeans_labels (df Sample.session) 50 k = Ok labels ∧
        silhouette_score (df Sample.session) labels = Ok sv ∧
        calinski_harabaz_score (df Sample.session) labels = Ok cv ∧
        silh !! Z.to_nat (k - 2) = Some sv ∧
        cal_har !! Z.to_nat (k - 2) = Some cv) ∧
    (∀ k, 2 ≤ k < 4 → ∃ t,
        kmeans_table (df Sample.session) (country_names Sample.session) 50 k
        = Ok t ∧
        clusterings s' !! ("kmeans" +:+ str k) = Some t) ∧
    (∀ ev, clusterings s'
           = clusterings (run ((λ k, Kmeans k 0 50 ev) <$> arange 2 4)
                              Sample.session)).
Proof.
  apply (multipleKmeans_stores_every_k 2 4 0 50 Sample.session
           (df Sample.session)).
  - lia.
  - reflexivity.
  - intros k Hk. assert (k = 2 ∨ k = 3) as [-> | ->] by lia.
    + exists [0; 1; 0; 1],
        [(0, [Text "Italy"; Text "Brazil"]);
         (1, [Text "France"; Text "Argentina"])], 0%Q, 1%Q.
      repeat split; reflexivity.
    + exists [0; 1; 2; 0],
        [(0, [Text "Italy"; Text "Argentina"]);
         (1, [Text "France"]); (2, [Text "Brazil"])], 0%Q, 1%Q.
      repeat split; reflexivity.
Defined.

(** C10, as the specification has it, fails when a call of the loop
    raises.  On the range [1, 4) the silhouette of the single cluster of
    [k = 1] raises: [multipleKmeans] stops there and has stored [kmeans1]
    only, while [kmeans] called for each count of the range stores the
    three results. *)
Lemma multipleKmeans_stops_at_failing_score :
  (multipleKmeans 1 4 0 50 Sample.session).1 = Raise LibraryError ∧
  clusterings (multipleKmeans 1 4 0 50 Sample.session).2 !! "kmeans1"
  = Some [(0, [Text "Italy"; Text "France"; Text "Brazil"; Text "Argentina"])] ∧
  clusterings (multipleKmeans 1 4 0 50 Sample.session).2 !! "kmeans2" = None ∧
  clusterings (multipleKmeans 1 4 0 50 Sample.session).2 !! "kmeans3" = None ∧
  clusterings (run ((λ k, Kmeans k 0 50 true) <$> arange 1 4) Sample.session)
    !! "kmeans1"
  = Some [(0, [Text "Italy"; Text "France"; Text "Brazil"; Text "Argentina"])] ∧
  clusterings (run ((λ k, Kmeans k 0 50 true) <$> arange 1 4) Sample.session)
    !! "kmeans2"
  = Some [(0, [Text "Italy"; Text "Brazil"]);
          (1, [Text "France"; Text "Argentina"])] ∧
  clusterings (run ((λ k, Kmeans k 0 50 true) <$> arange 1 4) Sample.session)
    !! "kmeans3"
  = Some [(0, [Text "Italy"; Text "Argentina"]);
          (1, [Text "France"]); (2, [Text "Brazil"])].
Proof. repeat split; reflexivity. Qed.

(** C1 (defect). [gmBIC] records the position of the least criterion plus
    one, which is the component count only when the range starts at 1.
    On the range [2, 4) with criteria 10 for two components and 5 for
    three, it records the count 2 with the score 5, although the count
    with the least criterion is 3. *)
Theorem gmBIC_records_position_plus_one :
  (∀ g n cov n_init d,
     GaussianMixture_fit_bic g n cov n_init d
     = (Ok (Sample.sample_bic n), g + 1)) ∧
  min_BIC (gmBIC 2 4 "full" 50 0 Sample.session).2 = Some (2, 5%Q) ∧
  minimizes_bic Sample.sample_bic 2 4 3 ∧
  ¬ minimizes_bic Sample.sample_bic 2 4 2.
Proof.
  split; [done |]. split; [reflexivity |]. split.
  - split; [lia |]. intros m Hm.
    assert (m = 2 ∨ m = 3) as [-> | ->] by lia; vm_compute; discriminate.
  - intros [_ Hmin]. specialize (Hmin 3 ltac:(lia)).
    vm_compute in Hmin. by apply Hmin.
Qed.

(** C4 (defect). The lines of the table come in the order in which the set
    of labels is iterated, and CPython iterates the noise label [-1] of
    HDBSCAN after the labels [0], [1], ...: the labels are not ascending. *)
Theorem clustersTable_noise_label_last :
  clustersTable CPython.set_iter [Text "A"; Text "B"; Text "C"] [0; -1; 0]
  = Ok [(0, [Text "A"; Text "C"]); (-1, [Text "B"])] ∧
  clusterings (hdbscan 2 0 Sample.session).2 !! "hdbscan"
  = Some [(0, [Text "France"; Text "Brazil"; Text "Argentina"]);
          (-1, [Text "Italy"])].
Proof. split; reflexivity. Qed.

End OnSample.

End Runs.

(** * More about [Preprocessing] *)

Module PreprocessingCoverage.
Import Preprocessing Notions PreprocessingFacts.

(** ** Loading: when it fails, what it keeps *)

Lemma get_loc_None (l : cell) (labels : list cell) :
  get_loc l labels = None ↔ l ∉ labels.
Proof.
  induction labels as [| x labels IH]; cbn.
  - split; [intros _; apply not_elem_of_nil | done].
  - rewrite not_elem_of_cons. destruct (decide (x = l)) as [-> | Hne].
    + split; [done | intros [? _]; done].
    + destruct (get_loc l labels); cbn; split; try done.
      * intros [_ Hl]. by apply IH in Hl.
      * intros _. split; [done | by apply IH].
Qed.

Lemma get_locs_nil (l : cell) (labels : list cell) :
  get_locs l labels = [] ↔ l ∉ labels.
Proof.
  split.
  - intros Hnil [j Hj]%list_elem_of_lookup.
    apply elem_of_get_locs in Hj. rewrite Hnil in Hj. by apply elem_of_nil in Hj.
  - intros Hnot. destruct (get_locs l labels) as [| j js] eqn:Hlocs; [done |].
    exfalso. apply Hnot.
    assert (Hj : j ∈ get_locs l labels) by (rewrite Hlocs; left).
    apply elem_of_get_locs in Hj. by eapply list_elem_of_lookup_2.
Qed.

Lemma getitem_locs_Ok_iff (names : list string) (labels : list cell) :
  (∃ js, getitem_locs names labels = Ok js) ↔ ∀ n, n ∈ names → Text n ∈ labels.
Proof.
  induction names as [| n names IH]; cbn.
  - split; [intros _ n Hn; by apply elem_of_nil in Hn | eauto].
  - destruct (get_locs (Text n) labels) as [| j js] eqn:Hlocs.
    + apply get_locs_nil in Hlocs. split; [by intros [? ?] |].
      intros Hall. exfalso. apply Hlocs, Hall. left.
    + assert (Hn : Text n ∈ labels).
      { destruct (decide (Text n ∈ labels)) as [| Hnot]; [done |].
        apply get_locs_nil in Hnot. congruence. }
      destruct (getitem_locs names labels) as [rest | e]; cbn.
      * split; [| eauto]. intros _ m [-> | Hm]%elem_of_cons; [done |].
        apply IH; eauto.
      * split; [by intros [? ?] |]. intros Hall.
        destruct IH as [_ [? ?]]; [| done]. intros m Hm. apply Hall. by right.
Qed.

Section Loading.

Variable parse_number : string → option Q.

(** X1. Loading succeeds exactly when the table has a column of
    identifiers, no identifier occurs twice, and every field of a non-empty
    field subset, like the display name that goes with it, is a column of
    the table.  Nothing else makes it fail: text that is no number never
    does. *)
Theorem init_succeeds_iff (raw : DataFrame cell)
    (varlist : option (list string)) :
  (∃ df, init parse_number raw varlist = Ok df) ↔
  ∃ j, get_loc (Text "Country Code") (columns raw) = Some j ∧
       NoDup (column j (values raw)) ∧
       ∀ v vs, varlist = Some (v :: vs) →
         ∀ n, n ∈ "Country Name" :: v :: vs → Text n ∈ delete j (columns raw).
Proof.
  unfold init, set_index.
  destruct (get_loc (Text "Country Code") (columns raw)) as [j |];
    [| split; [by intros [? ?] | by intros (? & ? & _)]].
  destruct (decide (NoDup (column j (values raw)))) as [Hnd | Hnd].
  2: { rewrite bool_decide_eq_false_2 by done. cbn.
       split; [by intros [? ?] |]. by intros (? & [= <-] & ? & _). }
  rewrite bool_decide_eq_true_2 by done. cbn [andb negb mbind result_bind].
  destruct varlist as [[| v vs] |].
  - split; [| eauto]. intros _. exists j. by repeat split.
  - unfold getitem. cbn [columns].
    pose proof (getitem_locs_Ok_iff ("Country Name" :: v :: vs)
                  (delete j (columns raw))) as Hlocs.
    destruct (getitem_locs ("Country Name" :: v :: vs) (delete j (columns raw)))
      as [js | e]; cbn [mbind result_bind].
    + split; [| eauto]. intros _. exists j. split; [done |]. split; [done |].
      intros v' vs' [= <- <-]. apply Hlocs. eauto.
    + split; [by intros [? ?] |]. intros (j' & [= <-] & _ & Hall).
      destruct Hlocs as [_ [? ?]]; [| done]. by apply Hall.
  - split; [| eauto]. intros _. exists j. by repeat split.
Qed.

Lemma convert_row_lookup (row : list cell) (p : nat) :
  convert_row parse_number row !! p
  = (if decide (p = 0%nat) then id else to_numeric parse_number) <$> row !! p.
Proof.
  destruct row as [| c rest]; [by destruct p |].
  destruct p as [| p]; [done |].
  exact (list_lookup_fmap (to_numeric parse_number) rest p).
Qed.

Lemma getitem_locs_lookup (names : list string) (labels : list cell)
    (js : list nat) (p : nat) (n : string) :
  NoDup labels →
  getitem_locs names labels = Ok js →
  names !! p = Some n →
  ∃ j, js !! p = Some j ∧ labels !! j = Some (Text n).
Proof.
  intros Hnd. revert js p. induction names as [| m names IH]; intros js p;
    [done |].
  cbn. destruct (get_locs (Text m) labels) as [| j rest] eqn:Hlocs; [done |].
  destruct (get_locs_unique _ _ _ _ Hnd Hlocs) as [-> Hj].
  destruct (getitem_locs names labels) as [js' |]; [| done].
  cbn. intros [= <-]. destruct p as [| p]; cbn.
  - intros [= <-]. eauto.
  - by apply IH.
Qed.

Lemma lookup_delete_same_label {A} (cols : list cell) (row : list A)
    (j0 j j' : nat) (l : cell) :
  NoDup cols → length row = length cols →
  cols !! j = Some l → delete j0 cols !! j' = Some l →
  delete j0 row !! j' = row !! j.
Proof.
  intros Hnd Hlen Hj Hj'. destruct (decide (j' < j0)%nat) as [Hlt | Hge].
  - rewrite list_lookup_delete_lt in Hj' by done.
    rewrite list_lookup_delete_lt by done.
    by rewrite (NoDup_lookup _ _ _ _ Hnd Hj Hj').
  - rewrite list_lookup_delete_ge in Hj' by lia.
    rewrite list_lookup_delete_ge by lia.
    by rewrite (NoDup_lookup _ _ _ _ Hnd Hj Hj').
Qed.

(** X2. Loading with a field subset, from a rectangular table with distinct
    column names: the loaded table has the display name and then the fields
    asked for, in the order asked; its rows are those of the file, in order;
    and under each field every row holds the cell that the file has under
    that field, as it is for the display name placed first and converted to
    a number or to missing for the others. *)
Theorem init_field_subset (raw : DataFrame cell) (v : string)
    (vs : list string) (df : DataFrame cell) :
  rectangular raw →
  NoDup (columns raw) →
  init parse_number raw (Some (v :: vs)) = Ok df →
  columns df = Text <$> "Country Name" :: v :: vs ∧
  (∃ j0, columns raw !! j0 = Some (Text "Country Code") ∧
         index df = column j0 (values raw)) ∧
  length (values df) = length (values raw) ∧
  ∀ i row p n j,
    values raw !! i = Some row →
    ("Country Name" :: v :: vs) !! p = Some n →
    columns raw !! j = Some (Text n) →
    ∃ row', values df !! i = Some row' ∧
      row' !! p = Some (if decide (p = 0%nat) then nth j row NaN
                        else to_numeric parse_number (nth j row NaN)).
Proof.
  intros Hrect Hnd. unfold init, set_index.
  destruct (get_loc (Text "Country Code") (columns raw)) as [j0 |] eqn:Hloc;
    [| done].
  apply get_loc_lookup in Hloc.
  destruct (bool_decide (NoDup (column j0 (values raw)))); [| done].
  cbn [andb negb mbind result_bind]. unfold getitem. cbn [columns index values].
  assert (Hnd' : NoDup (delete j0 (columns raw)))
    by (eapply sublist_NoDup; [exact Hnd | apply sublist_delete]).
  destruct (getitem_locs ("Country Name" :: v :: vs) (delete j0 (columns raw)))
    as [js |] eqn:Hlocs; [| done].
  cbn [mbind result_bind]. intros [= <-]. cbn [columns index values].
  split; [by apply getitem_locs_labels |]. split; [eauto |].
  split; [by rewrite !length_fmap |].
  intros i row p n j Hrow Hn Hj.
  destruct (getitem_locs_lookup _ _ _ p n Hnd' Hlocs Hn) as (j' & Hp & Hj').
  exists (convert_row parse_number
            ((λ j, nth j (delete j0 row) NaN) <$> js)).
  split; [by rewrite !list_lookup_fmap, Hrow |].
  rewrite convert_row_lookup, list_lookup_fmap, Hp. cbn.
  assert (Hcell : nth j' (delete j0 row) NaN = nth j row NaN).
  { rewrite !nth_lookup. f_equal.
    eapply lookup_delete_same_label; [exact Hnd | | exact Hj | exact Hj'].
    unfold rectangular in Hrect. rewrite Forall_forall in Hrect.
    apply Hrect. by eapply list_elem_of_lookup_2. }
  rewrite Hcell. by destruct (decide (p = 0%nat)).
Qed.

End Loading.

Lemma init_field_subset_witness :
  columns Sample.loaded_trade = Text <$> ["Country Name"; "Trade"] ∧
  (∃ j0, columns Sample.raw !! j0 = Some (Text "Country Code") ∧
         index Sample.loaded_trade = column j0 (values Sample.raw)) ∧
  length (values Sample.loaded_trade) = length (values Sample.raw) ∧
  ∀ i row p n j,
    values Sample.raw !! i = Some row →
    ["Country Name"; "Trade"] !! p = Some n →
    columns Sample.raw !! j = Some (Text n) →
    ∃ row', values Sample.loaded_trade !! i = Some row' ∧
      row' !! p = Some (if decide (p = 0%nat) then nth j row NaN
                        else to_numeric Sample.sample_parse (nth j row NaN)).
Proof.
  apply (init_field_subset Sample.sample_parse Sample.raw "Trade" []).
  - repeat constructor.
  - apply (bool_decide_unpack _). vm_compute. exact I.
  - reflexivity.
Defined.

(** ** Pruning *)

Lemma select_keep_all {A} (labels : list cell) (l : list A) :
  (length l ≤ length labels)%nat → select (keep_mask labels []) l = l.
Proof.
  revert l. induction labels as [| x labels IH]; intros [| y l] Hlen;
    try done; cbn in *; [lia |].
  rewrite bool_decide_eq_true_2 by apply not_elem_of_nil.
  f_equal. apply IH. lia.
Qed.

Lemma drop_nothing (axis : Z) (df : DataFrame cell) :
  axis = 0 ∨ axis = 1 → well_formed df → drop [] axis df = Ok df.
Proof.
  intros Hax [Hrows Hwidth]. destruct df as [idx cols rows].
  unfold drop. cbn [index columns values] in *.
  destruct Hax as [-> | ->]; repeat case_decide; try done.
  - by rewrite !select_keep_all by lia.
  - rewrite select_keep_all by lia. do 2 f_equal.
    transitivity (id <$> rows); [| apply list_fmap_id].
    apply Forall_fmap_ext_1. eapply Forall_impl; [exact Hwidth |].
    intros row Hrow. cbn beta in *. unfold id. apply select_keep_all. lia.
Qed.

Lemma drop_well_formed (dropped : list cell) (axis : Z)
    (df df' : DataFrame cell) :
  well_formed df → drop dropped axis df = Ok df' → well_formed df'.
Proof.
  intros [Hrows Hwidth]. unfold drop.
  repeat case_decide; [| | done]; intros [= <-]; split; cbn.
  - by apply length_select_same.
  - by apply Forall_select.
  - by rewrite length_fmap.
  - apply Forall_fmap. eapply Forall_impl; [exact Hwidth |].
    intros row Hrow. cbn. by apply length_select_same.
Qed.

Lemma drop_axis (dropped : list cell) (axis : Z) (df df' : DataFrame cell) :
  drop dropped axis df = Ok df' →
  (axis = 0 ∨ axis = 1) ∧
  axis_length axis df' = axis_length axis df ∧
  axis_labels (int_not axis) df' = axis_labels (int_not axis) df.
Proof.
  unfold drop, axis_length, axis_labels, int_not.
  repeat case_decide; try done; intros [= <-]; cbn; auto.
Qed.

Lemma dropPoorFeatures_inv (axis : Z) (p : Q) (df df' : DataFrame cell)
    (removed : list cell) :
  dropPoorFeatures axis p df = Ok (df', removed) →
  removed = poor_features axis p df ∧ drop removed axis df = Ok df'.
Proof.
  unfold dropPoorFeatures.
  destruct (drop (poor_features axis p df) axis df) as [d |] eqn:Hdrop;
    [| done].
  cbn. by intros [= <- <-].
Qed.

Lemma not_poor_at_least_one (p : Q) (c n : Z) :
  0 ≤ c ≤ n → (1 <= p)%Q → is_poor p n c = false.
Proof.
  intros Hc Hp. apply bool_decide_eq_false_2. intros Hpoor.
  assert (Hcn : (inject_Z c <= inject_Z n)%Q) by (rewrite <- Zle_Qle; lia).
  assert (Hn : (0 <= inject_Z n)%Q) by (unfold Qle; cbn; lia).
  assert (Hpn : (inject_Z n <= p * inject_Z n)%Q).
  { rewrite <- (Qmult_1_l (inject_Z n)) at 1. by apply Qmult_le_compat_r. }
  apply (Qlt_irrefl (inject_Z c)).
  eapply Qle_lt_trans; [| exact Hpoor]. by eapply Qle_trans.
Qed.

Lemma is_poor_monotone (p q : Q) (c n : Z) :
  0 ≤ n → (p <= q)%Q → is_poor q n c = true → is_poor p n c = true.
Proof.
  intros Hn Hpq Hq. apply bool_decide_eq_true_1 in Hq.
  apply bool_decide_eq_true_2. eapply Qle_lt_trans; [| exact Hq].
  apply Qmult_le_compat_r; [done |]. unfold Qle. cbn. lia.
Qed.

(** X3. Pruning twice is pruning once: on the table that [dropPoorFeatures]
    returns, the same call removes nothing and returns the same table. *)
Theorem dropPoorFeatures_idempotent (axis : Z) (p : Q)
    (df df' : DataFrame cell) (removed : list cell) :
  well_formed df →
  dropPoorFeatures axis p df = Ok (df', removed) →
  dropPoorFeatures axis p df' = Ok (df', []).
Proof.
  intros Hwf [-> Hdrop]%dropPoorFeatures_inv.
  destruct (drop_axis _ _ _ _ Hdrop) as (Hax & Hlen & _).
  pose proof (drop_well_formed _ _ _ _ Hwf Hdrop) as Hwf'.
  destruct (drop_lines axis Hax (poor_features axis p df) df Hwf)
    as (d & Hd & _ & Hlines).
  assert (d = df') as -> by congruence.
  assert (Hnone : poor_features axis p df' = []).
  { apply elem_of_nil_inv. intros l Hl.
    apply (elem_of_poor_features axis Hax) in Hl as (line & Hin & Hpoor).
    rewrite Hlines in Hin. apply list_elem_of_filter in Hin as [Hkept Hin].
    apply Hkept. apply (elem_of_poor_features axis Hax).
    exists line. by rewrite <- Hlen. }
  unfold dropPoorFeatures. rewrite Hnone, drop_nothing by done. done.
Qed.

(** X4. With a threshold of 1 or more nothing is removed: the call returns
    the table as it is and an empty list. *)
Theorem dropPoorFeatures_threshold_one (axis : Z) (p : Q)
    (df : DataFrame cell) :
  axis = 0 ∨ axis = 1 →
  well_formed df →
  (1 <= p)%Q →
  dropPoorFeatures axis p df = Ok (df, []).
Proof.
  intros Hax Hwf Hp.
  assert (Hnone : poor_features axis p df = []).
  { apply elem_of_nil_inv. intros l Hl.
    apply (elem_of_poor_features axis Hax) in Hl as (line & Hin & Hpoor).
    pose proof (line_length axis Hax df l line Hwf Hin) as Hlen.
    pose proof (count_null_bounds line) as Hcount. rewrite Hlen in Hcount.
    by rewrite (not_poor_at_least_one p _ _ Hcount Hp) in Hpoor. }
  unfold dropPoorFeatures. rewrite Hnone, drop_nothing by done. done.
Qed.

(** X5. A lower threshold removes at least as much: what is removed at a
    threshold is removed at every lower one, and what is kept at the lower
    one is kept at the higher. *)
Theorem dropPoorFeatures_monotone (axis : Z) (p q : Q)
    (df dp dq : DataFrame cell) (rp rq : list cell) :
  (p <= q)%Q →
  dropPoorFeatures axis p df = Ok (dp, rp) →
  dropPoorFeatures axis q df = Ok (dq, rq) →
  (∀ l, l ∈ rq → l ∈ rp) ∧
  (∀ l, l ∈ axis_labels axis dp → l ∈ axis_labels axis dq).
Proof.
  intros Hpq [-> Hdp]%dropPoorFeatures_inv [-> Hdq]%dropPoorFeatures_inv.
  destruct (drop_axis _ _ _ _ Hdp) as (Hax & _ & _).
  assert (Hsub : ∀ l, l ∈ poor_features axis q df → l ∈ poor_features axis p df).
  { intros l Hl.
    apply (elem_of_poor_features axis Hax) in Hl as (line & Hin & Hpoor).
    apply (elem_of_poor_features axis Hax). exists line. split; [done |].
    eapply is_poor_monotone; [| exact Hpq | exact Hpoor].
    unfold axis_length. case_decide; lia. }
  split; [done |].
  assert (Hlabels : ∀ r d, drop r axis df = Ok d →
            axis_labels axis d = filter (λ l, l ∉ r) (axis_labels axis df)).
  { intros r d. unfold drop, axis_labels.
    destruct Hax as [-> | ->]; repeat case_decide; try done;
      intros [= <-]; apply select_keep_mask. }
  intros l. rewrite (Hlabels _ _ Hdp), (Hlabels _ _ Hdq), !list_elem_of_filter.
  intros [Hkept Hl]. split; [| done]. intros Hq. by apply Hkept, Hsub.
Qed.

(** X6. Pruning removes whole lines and nothing else: the rows (or columns)
    of the pruned table are rows (or columns) of the table, unchanged and
    in the same order, and the labels of the other axis are untouched. *)
Theorem dropPoorFeatures_keeps_order (axis : Z) (p : Q)
    (df df' : DataFrame cell) (removed : list cell) :
  well_formed df →
  dropPoorFeatures axis p df = Ok (df', removed) →
  axis_lines axis df' `sublist_of` axis_lines axis df ∧
  axis_labels (int_not axis) df' = axis_labels (int_not axis) df.
Proof.
  intros Hwf [-> Hdrop]%dropPoorFeatures_inv.
  destruct (drop_axis _ _ _ _ Hdrop) as (Hax & _ & Hother).
  destruct (drop_lines axis Hax (poor_features axis p df) df Hwf)
    as (d & Hd & _ & Hlines).
  assert (d = df') as -> by congruence.
  split; [| done]. rewrite Hlines. apply sublist_filter.
Qed.

(** X28. With the threshold 0 the pruned table has no missing cell along
    the axis: every row (or column) that is left is complete. *)
Theorem dropPoorFeatures_zero_complete (axis : Z) (df df' : DataFrame cell)
    (removed : list cell) :
  well_formed df →
  dropPoorFeatures axis 0 df = Ok (df', removed) →
  ∀ label line, (label, line) ∈ axis_lines axis df' →
    Forall (λ c, isnull c = false) line.
Proof.
  intros Hwf [-> Hdrop]%dropPoorFeatures_inv label line Hin.
  destruct (drop_axis _ _ _ _ Hdrop) as (Hax & _ & _).
  destruct (drop_lines axis Hax (poor_features axis 0 df) df Hwf)
    as (d & Hd & _ & Hlines).
  assert (d = df') as -> by congruence.
  rewrite Hlines in Hin. apply list_elem_of_filter in Hin as [Hkept Hin].
  cbn in Hkept. rewrite (elem_of_poor_features axis Hax) in Hkept.
  apply Forall_forall. intros c Hc.
  destruct (isnull c) eqn:Hnull; [| done]. exfalso. apply Hkept.
  exists line. split; [done |]. apply bool_decide_eq_true_2.
  rewrite Qmult_0_l. change 0%Q with (inject_Z 0). rewrite <- Zlt_Qlt.
  unfold count_null.
  assert (Hmem : c ∈ filter (λ c, isnull c = true) line)
    by by apply list_elem_of_filter.
  destruct (filter (λ c, isnull c = true) line); [| cbn; lia].
  by apply elem_of_nil in Hmem.
Qed.

Lemma dropPoorFeatures_zero_complete_witness :
  Forall (λ c, isnull c = false) [Text "Italy"; Num 12; Num 7].
Proof.
  apply (dropPoorFeatures_zero_complete 0 Sample.loaded Sample.complete
           [Text "FRA"; Text "BRA"; Text "ATA"]) with (label := Text "ITA").
  - split; [reflexivity | repeat constructor].
  - reflexivity.
  - apply (bool_decide_unpack _). vm_compute. exact I.
Defined.

Lemma init_valid_witness : valid Sample.loaded_trade.
Proof.
  apply (init_valid Sample.sample_parse Sample.raw (Some ["Trade"])
           Sample.loaded_trade).
  - repeat constructor.
  - apply (bool_decide_unpack _). vm_compute. exact I.
  - intros vs [= <-]. apply (bool_decide_unpack _). vm_compute. exact I.
  - reflexivity.
Defined.

Lemma dropPoorFeatures_valid_witness : valid Sample.pruned.
Proof.
  apply (dropPoorFeatures_valid 0 (1 # 2) Sample.loaded Sample.pruned
           [Text "FRA"; Text "ATA"]).
  - split; [split; [reflexivity | repeat constructor] |].
    split; apply (bool_decide_unpack _); vm_compute; exact I.
  - reflexivity.
Defined.

Lemma dropPoorFeatures_idempotent_witness :
  dropPoorFeatures 0 (1 # 2) Sample.pruned = Ok (Sample.pruned, []).
Proof.
  apply (dropPoorFeatures_idempotent 0 (1 # 2) Sample.loaded Sample.pruned
           [Text "FRA"; Text "ATA"]).
  - split; [reflexivity | repeat constructor].
  - reflexivity.
Defined.

Lemma dropPoorFeatures_threshold_one_witness :
  dropPoorFeatures 1 1 Sample.loaded = Ok (Sample.loaded, []).
Proof.
  apply (dropPoorFeatures_threshold_one 1 1 Sample.loaded).
  - right. reflexivity.
  - split; [reflexivity | repeat constructor].
  - vm_compute. discriminate.
Defined.

Lemma dropPoorFeatures_monotone_witness :
  (∀ l, l ∈ [Text "ATA"] → l ∈ [Text "FRA"; Text "ATA"]) ∧
  (∀ l, l ∈ axis_labels 0 Sample.pruned →
        l ∈ axis_labels 0 Sample.pruned_less).
Proof.
  apply (dropPoorFeatures_monotone 0 (1 # 2) (3 # 4) Sample.loaded
           Sample.pruned Sample.pruned_less).
  - vm_compute. discriminate.
  - reflexivity.
  - reflexivity.
Defined.

Lemma dropPoorFeatures_keeps_order_witness :
  axis_lines 0 Sample.pruned `sublist_of` axis_lines 0 Sample.loaded ∧
  axis_labels (int_not 0) Sample.pruned = axis_labels (int_not 0) Sample.loaded.
Proof.
  apply (dropPoorFeatures_keeps_order 0 (1 # 2) Sample.loaded Sample.pruned
           [Text "FRA"; Text "ATA"]).
  - split; [reflexivity | repeat constructor].
  - reflexivity.
Defined.

End PreprocessingCoverage.

(** * More about [Clustering] *)

Module ClusteringCoverage.
Import Clustering Notions PreprocessingFacts ClusteringFacts.

(** ** [clustersTable] *)

(** Iterating a set in the order of first occurrence obeys the laws. *)
#[local] Instance remove_dups_laws : SetLaws remove_dups.
Proof.
  split; [apply NoDup_remove_dups | intros l x; apply elem_of_remove_dups].
Qed.

Lemma sorted_by_key_nil {B} (l : list (Z * B)) : sorted_by_key l = [] ↔ l = [].
Proof.
  split; [| by intros ->]. intros Hnil.
  apply Permutation_nil_r. rewrite <- Hnil. symmetry.
  apply sorted_by_key_Permutation.
Qed.

(** X10. [clustersTable] checks no lengths: names without a label, and
    labels without a name, are left out without a word. *)
Theorem clustersTable_ignores_excess (iter : list Z → list Z)
    (names : list cell) (labels : list Z) :
  clustersTable iter names labels
  = clustersTable iter (take (length labels) names)
                       (take (length names) labels).
Proof.
  unfold clustersTable.
  by rewrite (zip_with_take_both pair labels names).
Qed.

Section Tables.

Variable iter : list Z → list Z.
Context `{!SetLaws iter}.

(** X11. [clustersTable] raises exactly when there is no label or no name,
    and then it is the length mismatch of the empty frame that it raises. *)
Theorem clustersTable_raises_iff (names : list cell) (labels : list Z)
    (e : exn) :
  clustersTable iter names labels = Raise e ↔
  e = ValueError "Length mismatch" ∧ (labels = [] ∨ names = []).
Proof.
  unfold clustersTable. rewrite zip_fmap_diag.
  set (lis := sorted_by_key (zip labels names)).
  assert (Hnil : iter lis.*1 = [] ↔ labels = [] ∨ names = []).
  { split.
    - intros Hiter. assert (Hlis : lis = []).
      { destruct lis as [| [x name] lis'] eqn:Hlis; [done |].
        assert (Hx : x ∈ iter ((x, name) :: lis').*1)
          by (apply set_iter_elem_of; left).
        rewrite Hiter in Hx. by apply elem_of_nil in Hx. }
      unfold lis in Hlis. apply (proj1 (sorted_by_key_nil _)) in Hlis.
      destruct labels, names; cbn in Hlis; try done; auto.
    - intros Hempty. assert (Hzip : zip labels names = []).
      { destruct Hempty as [-> | ->]; [done | by destruct labels]. }
      unfold lis. rewrite Hzip. cbn.
      destruct (iter []) as [| x l] eqn:Hiter; [done |].
      assert (Hx : x ∈ iter []) by (rewrite Hiter; left).
      apply (proj1 (set_iter_elem_of _ _)) in Hx. by apply elem_of_nil in Hx. }
  destruct (iter lis.*1) as [| g gs]; cbn.
  - split; [intros [= <-]; split; [done | by apply Hnil] | by intros [-> _]].
  - split; [done |]. intros [_ Hempty]. by apply Hnil in Hempty.
Qed.

End Tables.

Lemma clustersTable_raises_iff_witness :
  clustersTable remove_dups [Text "Italy"] [] = Raise (ValueError "Length mismatch") ↔
  ValueError "Length mismatch" = ValueError "Length mismatch" ∧
  (([] : list Z) = [] ∨ [Text "Italy"] = []).
Proof.
  apply (clustersTable_raises_iff remove_dups [Text "Italy"] []
           (ValueError "Length mismatch")).
Defined.

Lemma clustersTable_partition_witness :
  let names := [Text "Italy"; Text "France"; Text "Brazil"] in
  let labels := [1; 0; 1] in
  let t := [(0, [Text "France"]); (1, [Text "Italy"; Text "Brazil"])] in
  NoDup t.*1 ∧
  (∀ x, x ∈ t.*1 ↔ x ∈ labels) ∧
  (∀ x members, (x, members) ∈ t →
     members = (filter (λ y, y.1 = x) (zip labels names)).*2) ∧
  concat t.*2 ≡ₚ names.
Proof.
  apply (clustersTable_partition remove_dups
           [Text "Italy"; Text "France"; Text "Brazil"] [1; 0; 1]
           [(0, [Text "France"]); (1, [Text "Italy"; Text "Brazil"])]).
  - reflexivity.
  - reflexivity.
Defined.

Lemma elem_of_delete_NoDup {A} (l : list A) (j : nat) (x y : A) :
  NoDup l → l !! j = Some x → y ∈ delete j l ↔ y ∈ l ∧ y ≠ x.
Proof.
  intros Hnd Hj. rewrite delete_take_drop.
  pose proof (take_drop_middle l j x Hj) as Hl. clear Hj. revert Hl.
  generalize (take j l) (skipn (S j) l). intros a b <-.
  apply NoDup_app in Hnd as (Ha & Hab & Hb).
  apply NoDup_cons in Hb as [Hx Hb].
  rewrite !elem_of_app, elem_of_cons. split.
  - intros [Hy | Hy]; (split; [auto |]); intros ->; [| done].
    apply (Hab x Hy). left.
  - intros [[Hy | [-> | Hy]] Hne]; auto; done.
Qed.

Section WithLibrary.

Context `{Library}.

#[local] Existing Instance same_data_preorder.
#[local] Existing Instance same_results_except_preorder.

(** ** [__init__] *)

(** X13. The session that [__init__] builds from a rectangular file with
    distinct field names: the collection of results is empty and nothing
    is computed yet; the features are the fields of the file other than the
    identifier and the display name; and the identifiers and the display
    names are those of the rows of the file, row by row. *)
Theorem init_session (raw : DataFrame cell) (g : rng_state) (s : Session) :
  rectangular raw → NoDup (columns raw) →
  init raw g = Ok s →
  (clusterings s = ∅ ∧ df_pc s = None ∧ pca s = None ∧ link s = None ∧
   min_BIC s = None ∧ np_random s = g) ∧
  (∀ l, l ∈ columns (df s) ↔
        l ∈ columns raw ∧ l ≠ Text "Country Code" ∧ l ≠ Text "Country Name") ∧
  ∃ jc jn,
    columns raw !! jc = Some (Text "Country Code") ∧
    columns raw !! jn = Some (Text "Country Name") ∧
    length (index (df s)) = length (values raw) ∧
    length (country_names s) = length (values raw) ∧
    ∀ i row, values raw !! i = Some row →
      index (df s) !! i = Some (nth jc row NaN) ∧
      country_names s !! i = Some (nth jn row NaN).
Proof.
  intros Hrect Hnd. unfold init, set_index.
  destruct (get_loc (Text "Country Code") (columns raw)) as [jc |] eqn:Hjc;
    [| done].
  apply get_loc_lookup in Hjc.
  destruct (decide (NoDup (column jc (values raw)))) as [Hidx | Hidx].
  2: { by rewrite bool_decide_eq_false_2. }
  rewrite bool_decide_eq_true_2 by done.
  cbn [andb negb mbind result_bind columns values index].
  destruct (get_loc (Text "Country Name") (delete jc (columns raw)))
    as [jn' |] eqn:Hjn'; [| done].
  apply get_loc_lookup in Hjn'.
  cbn [mbind result_bind]. unfold drop. rewrite decide_False, decide_True by done.
  cbn [mbind result_bind columns values index].
  match goal with
  | |- context [scale ?d] => destruct (scale d) as [x |]; [| done]
  end.
  cbn [mbind result_bind]. intros [= <-]. cbn [df country_names df_pc pca link
    min_BIC clusterings np_random columns index values].
  split; [done |]. split.
  { intros l. rewrite select_keep_mask, list_elem_of_filter.
    rewrite (elem_of_delete_NoDup _ _ _ _ Hnd Hjc), list_elem_of_singleton.
    tauto. }
  assert (Hjn : ∃ jn, columns raw !! jn = Some (Text "Country Name")).
  { apply list_elem_of_lookup. eapply list_elem_of_delete_inv.
    by eapply list_elem_of_lookup_2. }
  destruct Hjn as [jn Hjn]. exists jc, jn.
  split; [done |]. split; [done |]. unfold column.
  rewrite !length_fmap. split; [done |]. split; [done |].
  intros i row Hrow. rewrite !list_lookup_fmap, Hrow. cbn. split; [done |].
  f_equal. rewrite !nth_lookup. f_equal.
  eapply PreprocessingCoverage.lookup_delete_same_label; [exact Hnd | | done..].
  unfold rectangular in Hrect. rewrite Forall_forall in Hrect.
  apply Hrect. by eapply list_elem_of_lookup_2.
Qed.

(** ** [getPC] *)

Lemma getPC_run (s : Session) :
  getPC s =
  match PCA_fit_transform (np_random s) (df s) with
  | (Ok (scores, ratios), g) =>
      (Ok tt,
       set_df_pc {| index := index (df s);
                    columns := (λ j, Num (inject_Z j)) <$>
                               seqZ 0 (Z.of_nat (length ratios));
                    values := scores |}
         (set_pca (Fitted ratios) (set_np_random g (set_pca Unfitted s))))
  | (Raise e, g) => (Raise e, set_np_random g (set_pca Unfitted s))
  end.
Proof.
  unfold getPC, gets, draw, modify, mbind, M_bind. cbn.
  by destruct (PCA_fit_transform (np_random s) (df s))
    as [[[scores ratios] | e] g].
Qed.

(** X14. [getPC] writes the estimator, the component scores and the
    generator, and nothing else.  When the routine returns, the estimator
    is the fitted one and the scores stored are those of the routine on the
    standardised table, indexed like it.  When the routine raises, the
    scores of an earlier call stay, but the estimator is the new, unfitted
    one: the variance ratios of an earlier call are gone. *)
Theorem getPC_frame (s : Session) :
  let fit := PCA_fit_transform (np_random s) (df s) in
  let s' := (getPC s).2 in
  (df s' = df s ∧ country_names s' = country_names s ∧
   clusterings s' = clusterings s ∧ min_BIC s' = min_BIC s ∧
   link s' = link s ∧ np_random s' = fit.2) ∧
  match fit.1 with
  | Ok (scores, ratios) =>
      (getPC s).1 = Ok tt ∧ pca s' = Some (Fitted ratios) ∧
      ∃ pc, df_pc s' = Some pc ∧ index pc = index (df s) ∧ values pc = scores
  | Raise e =>
      (getPC s).1 = Raise e ∧ pca s' = Some Unfitted ∧ df_pc s' = df_pc s
  end.
Proof.
  cbn zeta. rewrite getPC_run.
  destruct (PCA_fit_transform (np_random s) (df s)) as [[[scores ratios] | e] g];
    cbn; repeat split; eauto.
Qed.

#[local] Instance scores_kept_preorder : PreOrder scores_kept.
Proof.
  split; [intros s Hs; exact Hs | intros s1 s2 s3 H12 H23 Hs; by apply H23, H12].
Qed.

Lemma exec_scores_kept (c : call) : preserves scores_kept (exec c).
Proof.
  assert (c = GetPC ∨ c ≠ GetPC) as [-> | Hc]
    by (destruct c; [by left | by right ..]).
  - apply preserves_getPC; [apply _ | ..]; intros; intros Hs; cbn; eauto.
  - apply preserves_exec; [apply _ | ..]; try done; intros; intros Hs;
      exact Hs.
Qed.

Lemma run_scores_kept (cs : list call) (s : Session) :
  scores_kept s (run cs s).
Proof.
  revert s. induction cs as [| c cs IH]; intros s; [done |].
  change (run (c :: cs) s) with (run cs (exec c s).2).
  etransitivity; [apply exec_scores_kept | apply IH].
Qed.

(** X15. Once [getPC] has returned, the component scores stay: after any
    series of calls, a clustering method that asks for a projection gets
    its columns, and the precompute error is not raised again. *)
Theorem getPC_enables_projection (s : Session) (cs : list call) (k : Z) :
  (getPC s).1 = Ok tt →
  0 < k →
  let s' := run cs (getPC s).2 in
  ∃ pc, df_pc s' = Some pc ∧
        select_features k s' = (Ok (iloc_columns (k + 1) pc), s').
Proof.
  intros Hok Hk s'.
  assert (Hsome : is_Some (df_pc s')).
  { apply run_scores_kept. pose proof (getPC_run s) as Hrun.
    destruct (PCA_fit_transform (np_random s) (df s)) as [[[scores ratios] | e] g];
      rewrite Hrun in Hok |- *; [by eexists | done]. }
  destruct Hsome as [pc Hpc]. exists pc. split; [done |].
  unfold select_features. by rewrite decide_True, Hpc.
Qed.

(** X16. Asking for more components than there are gives them all: the
    selection is the whole table of scores, and no error. *)
Theorem select_features_all_components (k : Z) (pc : DataFrame Q)
    (s : Session) :
  0 < k →
  df_pc s = Some pc →
  Forall (λ row, length row = length (columns pc)) (values pc) →
  Z.of_nat (length (columns pc)) ≤ k + 1 →
  select_features k s = (Ok pc, s).
Proof.
  intros Hk Hpc Hrows Hwidth. unfold select_features.
  rewrite decide_True, Hpc by done. do 2 f_equal.
  destruct pc as [idx cols rows]. unfold iloc_columns. cbn in *.
  rewrite take_ge by lia. f_equal.
  transitivity (id <$> rows); [| apply list_fmap_id].
  apply Forall_fmap_ext_1. eapply Forall_impl; [exact Hrows |].
  intros row Hrow. cbn in *. apply take_ge. lia.
Qed.

(** X17. A series of clustering calls, whatever each of them returns or
    raises, leaves the standardised table, the names and the component
    scores as they were. *)
Theorem clustering_calls_keep_data (cs : list call) (s : Session) :
  Forall (λ c, c ≠ GetPC) cs →
  same_data s (run cs s).
Proof.
  intros Hcs. revert s. induction Hcs as [| c cs Hc _ IH]; intros s; [done |].
  change (run (c :: cs) s) with (run cs (exec c s).2).
  etransitivity; [by apply exec_same_data | apply IH].
Qed.

(** ** [hierarchicalClustering] *)

Lemma length_append (s t : string) :
  String.length (s +:+ t) = (String.length s + String.length t)%nat.
Proof.
  induction s as [| a s IH]; [done |].
  change (S (String.length (s +:+ t))
          = S (String.length s + String.length t)).
  by rewrite IH.
Qed.

Lemma append_inj_r (s1 s2 t : string) : s1 +:+ t = s2 +:+ t → s1 = s2.
Proof.
  revert s2. induction s1 as [| a s1 IH]; intros [| b s2] Heq; [done | ..].
  - apply (f_equal String.length) in Heq.
    rewrite !length_append in Heq. cbn in Heq. lia.
  - apply (f_equal String.length) in Heq.
    rewrite !length_append in Heq. cbn in Heq. lia.
  - change (String a (s1 +:+ t) = String b (s2 +:+ t)) in Heq.
    injection Heq as -> Heq. f_equal. by apply IH.
Qed.

Lemma hierarchical_name_inj (metric met met' : string) :
  hierarchical_name met metric = hierarchical_name met' metric → met = met'.
Proof.
  unfold hierarchical_name. intros Heq.
  apply (inj (String.append "hierarchical_")) in Heq.
  by apply append_inj_r in Heq.
Qed.

Ltac step_body :=
  unfold store, benchClustering, void, seed;
  unfold modify, draw, gets, lift, mbind, M_bind, mret, M_ret;
  cbn -[clustersTable str String.append hierarchical_name].

(** One turn of the loop of [hierarchicalClustering]. *)
Lemma hierarchical_cons (d : DataFrame Q) (metric : string)
    (threshold : option Q) (met : string) (mets : list string) (s : Session) :
  ∃ s1, country_names s1 = country_names s ∧
    match hierarchical_table d (country_names s) metric threshold met with
    | Ok t =>
        clusterings s1 = <[hierarchical_name met metric := t]> (clusterings s) ∧
        hierarchicalClustering_on d metric (MethodList (met :: mets)) threshold s
        = hierarchicalClustering_on d metric (MethodList mets) threshold s1
    | Raise e =>
        clusterings s1 = clusterings s ∧
        hierarchicalClustering_on d metric (MethodList (met :: mets)) threshold s
        = (Raise e, s1)
    end.
Proof.
  unfold hierarchicalClustering_on, hierarchical_table.
  cbn [linkage_methods for_each]. step_body.
  destruct (linkage d metric met) as [links | e]; cbn [mbind result_bind];
    [| by exists s].
  destruct (fcluster links threshold) as [labels | e]; cbn [mbind result_bind];
    [| by exists (set_link links s)].
  destruct (clustersTable set_iter (country_names s) labels) as [t | e].
  - by exists (set_clustering (hierarchical_name met metric) t
                (set_link links s)).
  - by exists (set_link links s).
Qed.

Lemma hierarchical_loop (d : DataFrame Q) (metric : string)
    (threshold : option Q) (mets : list string) (s : Session) :
  let table := hierarchical_table d (country_names s) metric threshold in
  let out := hierarchicalClustering_on d metric (MethodList mets) threshold s in
  ∃ done rest, mets = done ++ rest ∧
    (∀ met, met ∈ done → ∃ t,
        table met = Ok t ∧
        clusterings out.2 !! hierarchical_name met metric = Some t) ∧
    (∀ name, name ∉ (λ met, hierarchical_name met metric) <$> done →
             clusterings out.2 !! name = clusterings s !! name) ∧
    match out.1 with
    | Ok _ => rest = []
    | Raise e => ∃ met, head rest = Some met ∧ table met = Raise e
    end.
Proof.
  cbn zeta. revert s. induction mets as [| met mets IH]; intros s.
  { exists [], []. repeat split; [| done..].
    intros met Hmet. by apply elem_of_nil in Hmet. }
  destruct (hierarchical_cons d metric threshold met mets s)
    as (s1 & Hnames & Hstep).
  destruct (hierarchical_table d (country_names s) metric threshold met)
    as [t | e] eqn:Htable.
  - destruct Hstep as [Hres ->].
    destruct (IH s1) as (done & rest & -> & Hstored & Hothers & Hout).
    rewrite Hnames in Hstored, Hout.
    exists (met :: done), rest. split; [done |]. split; [| split; [| done]].
    + intros met' Hmet'.
      destruct (decide (met' ∈ done)) as [Hin | Hnotin]; [by apply Hstored |].
      apply elem_of_cons in Hmet' as [-> | Hin]; [| done].
      exists t. split; [done |]. rewrite Hothers, Hres.
      * apply lookup_insert_eq.
      * intros (m & Heq & Hm)%list_elem_of_fmap.
        apply hierarchical_name_inj in Heq. by subst.
    + intros name Hname. cbn [fmap list_fmap] in Hname.
      apply not_elem_of_cons in Hname as [Hne Hname].
      rewrite (Hothers name Hname), Hres. by apply lookup_insert_ne.
  - destruct Hstep as [Hres ->]. exists [], (met :: mets).
    split; [done |]. split; [| split].
    + intros met' Hmet'. by apply elem_of_nil in Hmet'.
    + intros name _. cbn. by rewrite Hres.
    + cbn. eauto.
Qed.

(** X18. [hierarchicalClustering] goes through the methods in turn and
    stores the table of each under [hierarchical_<method>_<metric>]; when
    it returns, every method has its table; when a method raises, the
    tables of the methods before it are stored all the same, and the other
    results are as they were. *)
Theorem hierarchicalClustering_stores_until_failure (metric : string)
    (method : method_arg) (threshold : option Q) (on_PC : Z) (s : Session)
    (d : DataFrame Q) :
  (select_features on_PC s).1 = Ok d →
  let table := hierarchical_table d (country_names s) metric threshold in
  let out := hierarchicalClustering metric method threshold on_PC s in
  ∃ done rest, linkage_methods method = done ++ rest ∧
    (∀ met, met ∈ done → ∃ t,
        table met = Ok t ∧
        clusterings out.2 !! hierarchical_name met metric = Some t) ∧
    (∀ name, name ∉ (λ met, hierarchical_name met metric) <$> done →
             clusterings out.2 !! name = clusterings s !! name) ∧
    match out.1 with
    | Ok _ => rest = []
    | Raise e => ∃ met, head rest = Some met ∧ table met = Raise e
    end.
Proof.
  intros Hsel. cbn zeta. unfold hierarchicalClustering. rewrite bind_run.
  pose proof (select_features_session on_PC s) as Hs.
  destruct (select_features on_PC s) as [[d' | e] s0]; cbn in Hsel, Hs;
    [| done].
  injection Hsel as ->. subst s0.
  apply (hierarchical_loop d metric threshold (linkage_methods method) s).
Qed.

(** ** The methods that store one result *)

(** X19. [hdbscan], [gaussianMixture] and [bayesianGaussianMixture] store
    their result as their last step: when one of them raises, the
    collection of results is as it was; when it returns, the collection is
    as it was but for the table under the name of the call. *)
Theorem failed_call_stores_nothing (c : call) (s : Session) :
  stores_last c = true →
  match (exec c s).1 with
  | Ok _ => ∃ name t, run_names c = [name] ∧
                      clusterings (exec c s).2 = <[name := t]> (clusterings s)
  | Raise _ => clusterings (exec c s).2 = clusterings s
  end.
Proof.
  pose proof (select_features_session) as Hs.
  destruct c; try done; intros _; cbn [exec run_names];
    unfold hdbscan, bayesianGaussianMixture, gaussianMixture;
    rewrite bind_run; specialize (Hs on_PC s);
    destruct (select_features on_PC s) as [[d | e] s0]; cbn in Hs; subst s0;
    try done.
  - unfold hdbscan_on. step_body.
    destruct (HDBSCAN_fit_predict min_cluster_size d) as [labels | e];
      cbn -[clustersTable]; [| done].
    destruct (clustersTable set_iter (country_names s) labels) as [t | e];
      cbn; eauto.
  - unfold bayesianGaussianMixture_on. step_body.
    destruct (BayesianGaussianMixture_fit_predict _ _ _ _ _)
      as [[labels | e] g]; cbn -[clustersTable str String.append]; [| done].
    destruct (clustersTable set_iter (country_names s) labels) as [t | e];
      cbn -[str String.append]; eauto.
  - unfold gaussianMixture_on. step_body.
    destruct (GaussianMixture_fit_predict _ _ _ _ _)
      as [[labels | e] g]; cbn -[clustersTable str String.append]; [| done].
    destruct (clustersTable set_iter (country_names s) labels) as [t | e];
      cbn -[str String.append]; eauto.
Qed.

(** ** [kmeans] *)

(** X20. [kmeans] stores its result before it scores it: with and without
    [evaluate] the session ends the same, so a score that raises leaves the
    result of the call stored; and the scores are the only thing that can
    make the call with [evaluate] raise when the call without returns. *)
Theorem kmeans_scores_after_store (n on_PC n_init : Z) (s : Session) :
  (kmeans n on_PC n_init true s).2 = (kmeans n on_PC n_init false s).2 ∧
  (∀ e, (kmeans n on_PC n_init false s).1 = Raise e →
        (kmeans n on_PC n_init true s).1 = Raise e) ∧
  (∀ d labels,
     (select_features on_PC s).1 = Ok d →
     kmeans_labels d n_init n = Ok labels →
     (kmeans n on_PC n_init false s).1 = Ok tt →
     (kmeans n on_PC n_init true s).1
     = (_ ← silhouette_score d labels;
        _ ← calinski_harabaz_score d labels; Ok tt)).
Proof.
  unfold kmeans, kmeans_labels. rewrite !bind_run.
  pose proof (select_features_session on_PC s) as Hs.
  destruct (select_features on_PC s) as [[d | e] s0]; cbn in Hs; subst s0;
    [| repeat split; done].
  rewrite !kmeans_on_run. cbn zeta.
  split; [| split].
  - destruct (KMeans_fit_predict (np_random_seed 42) n n_init d).1
      as [labels | e]; [| done].
    destruct (clustersTable set_iter (country_names s) labels); [| done].
    destruct (silhouette_score d labels); [| done].
    by destruct (calinski_harabaz_score d labels).
  - intros e.
    destruct (KMeans_fit_predict (np_random_seed 42) n n_init d).1
      as [labels | e']; [| done].
    by destruct (clustersTable set_iter (country_names s) labels).
  - intros d' labels [= <-] Hfit. rewrite Hfit.
    destruct (clustersTable set_iter (country_names s) labels); [| done].
    intros _. destruct (silhouette_score d labels); [| done].
    by destruct (calinski_harabaz_score d labels).
Qed.

(** X21. [kmeans] resets numpy's generator, which belongs to the process:
    whatever the generator held before the call, it holds after it what
    the fit leaves of the seed 42. *)
Theorem kmeans_resets_generator (n on_PC n_init : Z) (ev : bool)
    (s : Session) (d : DataFrame Q) :
  (select_features on_PC s).1 = Ok d →
  np_random (kmeans n on_PC n_init ev s).2
  = (KMeans_fit_predict (np_random_seed 42) n n_init d).2.
Proof.
  intros Hsel. unfold kmeans. rewrite bind_run.
  pose proof (select_features_session on_PC s) as Hs.
  destruct (select_features on_PC s) as [[d' | e] s0]; cbn in Hsel, Hs;
    [| done].
  injection Hsel as ->. subst s0. rewrite kmeans_on_run. cbn zeta.
  destruct (KMeans_fit_predict (np_random_seed 42) n n_init d).1
    as [labels | e]; [| done].
  destruct (clustersTable set_iter (country_names s) labels); [| done].
  destruct ev; [| done].
  destruct (silhouette_score d labels); [| done].
  by destruct (calinski_harabaz_score d labels).
Qed.

(** ** [gmBIC] *)

#[local] Instance same_but_generator_preorder : PreOrder same_but_generator.
Proof.
  split.
  - intros s. by repeat split.
  - intros s1 s2 s3 (? & ? & ? & ? & ? & ? & ?) (? & ? & ? & ? & ? & ? & ?).
    repeat split; congruence.
Qed.

Lemma gmBIC_on_run (d : DataFrame Q) (n_min n_max : Z) (cov : string)
    (n_init : Z) (s : Session) :
  gmBIC_on d n_min n_max cov n_init s =
  match comprehension (arange n_min n_max)
          (λ n, draw (λ g, GaussianMixture_fit_bic g n cov n_init d)) s with
  | (Raise e, s1) => (Raise e, s1)
  | (Ok bics, s1) =>
      match np_argmin bics, np_min bics with
      | Ok i, Ok b => (Ok tt, set_min_BIC (Z.of_nat i + 1, b) s1)
      | Raise e, _ | _, Raise e => (Raise e, s1)
      end
  end.
Proof.
  unfold gmBIC_on. rewrite bind_run.
  destruct (comprehension _ _ s) as [[bics | e] s1]; [| done].
  unfold lift, modify. rewrite !bind_run.
  destruct (np_argmin bics) as [i | e]; [| done].
  rewrite !bind_run. by destruct (np_min bics).
Qed.

(** X22. On an empty range of component counts ([n_max ≤ n_min]), [gmBIC]
    fits nothing and raises the error of the least of an empty array; the
    session is as it was. *)
Theorem gmBIC_empty_range (n_min n_max : Z) (cov : string) (n_init on_PC : Z)
    (s : Session) (d : DataFrame Q) :
  n_max ≤ n_min →
  (select_features on_PC s).1 = Ok d →
  gmBIC n_min n_max cov n_init on_PC s
  = (Raise (ValueError "attempt to get argmin of an empty sequence"), s).
Proof.
  intros Hrange Hsel. unfold gmBIC. rewrite bind_run.
  pose proof (select_features_session on_PC s) as Hs.
  destruct (select_features on_PC s) as [[d' | e] s0]; cbn in Hsel, Hs;
    [| done].
  injection Hsel as ->. subst s0. rewrite gmBIC_on_run.
  unfold arange. by rewrite seqZ_nil by lia.
Qed.

(** X23. [gmBIC] writes the least criterion and the generator, nothing
    else; and when it raises, the least criterion of an earlier call is
    still the recorded one. *)
Theorem gmBIC_failure_keeps_record (n_min n_max : Z) (cov : string)
    (n_init on_PC : Z) (s : Session) :
  let out := gmBIC n_min n_max cov n_init on_PC s in
  match out.1 with
  | Ok _ => ∃ s1 record, same_but_generator s s1 ∧
                         out.2 = set_min_BIC record s1
  | Raise _ => same_but_generator s out.2
  end.
Proof.
  cbn zeta. unfold gmBIC. rewrite bind_run.
  pose proof (select_features_session on_PC s) as Hs.
  destruct (select_features on_PC s) as [[d | e] s0]; cbn in Hs; subst s0;
    [| by repeat split].
  rewrite gmBIC_on_run.
  assert (Hfits : preserves same_but_generator
            (comprehension (arange n_min n_max)
               (λ n, draw (λ g, GaussianMixture_fit_bic g n cov n_init d)))).
  { apply preserves_comprehension; [apply _ |]. intros n _.
    apply preserves_draw. intros g s1. by repeat split. }
  specialize (Hfits s).
  destruct (comprehension _ _ s) as [[bics | e] s1]; cbn in Hfits; [| done].
  destruct (np_argmin bics) as [i | e]; [| done].
  destruct (np_min bics) as [b | e]; [| done].
  cbn. eauto.
Qed.

(** ** [multipleKmeans] *)

(** X25. On an empty range of cluster counts [multipleKmeans] fits
    nothing and leaves the session as it was: it returns two empty arrays
    when [k_max = k_min], and raises the error of an array of negative
    length when [k_max < k_min]. *)
Theorem multipleKmeans_empty_range (k_min k_max on_PC n_init : Z)
    (s : Session) (d : DataFrame Q) :
  k_max ≤ k_min →
  (select_features on_PC s).1 = Ok d →
  multipleKmeans k_min k_max on_PC n_init s
  = (if decide (k_max = k_min) then Ok ([], [])
     else Raise (ValueError "negative dimensions are not allowed"), s).
Proof.
  intros Hrange Hsel. unfold multipleKmeans. rewrite bind_run.
  pose proof (select_features_session on_PC s) as Hs.
  destruct (select_features on_PC s) as [[d' | e] s0]; cbn in Hsel, Hs;
    [| done].
  injection Hsel as ->. subst s0.
  unfold multipleKmeans_on, np_zeros, arange, lift. rewrite !bind_run.
  rewrite seqZ_nil by lia.
  destruct (decide (k_max = k_min)) as [-> | Hne].
  - rewrite Z.sub_diag. reflexivity.
  - by rewrite decide_True by lia.
Qed.

(** One turn of the loop: it returns or raises as [kmeans_scored] does, and
    whichever it does, it has stored the table of [k] if it got that far. *)
Lemma multipleKmeans_step_outcome (d : DataFrame Q) (k_min n_init k : Z)
    (acc : list Q * list Q) (s : Session) :
  let out := multipleKmeans_step d k_min n_init k acc s in
  country_names out.2 = country_names s ∧
  clusterings out.2
  = stored_tables d (country_names s) n_init [k] (clusterings s) ∧
  match kmeans_scored d (country_names s) n_init k with
  | Ok _ => ∃ acc', out.1 = Ok acc'
  | Raise e => out.1 = Raise e
  end.
Proof.
  unfold multipleKmeans_step, stored_tables, kmeans_scored, kmeans_table,
    kmeans_labels.
  step_body.
  destruct (KMeans_fit_predict (np_random_seed 42) k n_init d)
    as [[labels | e] g]; cbn -[clustersTable str String.append]; [| done].
  destruct (clustersTable set_iter (country_names s) labels) as [t | e];
    cbn -[str String.append]; [| done].
  destruct (silhouette_score d labels); cbn -[str String.append]; [| done].
  destruct (calinski_harabaz_score d labels); cbn -[str String.append];
    [| done].
  eauto.
Qed.

Lemma multipleKmeans_loop_outcome (d : DataFrame Q) (k_min n_init : Z)
    (ks : list Z) (acc : list Q * list Q) (s : Session) :
  let names := country_names s in
  let out := for_fold ks (multipleKmeans_step d k_min n_init) acc s in
  match out.1 with
  | Ok _ =>
      (∀ k, k ∈ ks → ∃ scores, kmeans_scored d names n_init k = Ok scores) ∧
      clusterings out.2 = stored_tables d names n_init ks (clusterings s)
  | Raise e =>
      ∃ before k after,
        ks = before ++ k :: after ∧
        (∀ k', k' ∈ before →
               ∃ scores, kmeans_scored d names n_init k' = Ok scores) ∧
        kmeans_scored d names n_init k = Raise e ∧
        clusterings out.2
        = stored_tables d names n_init (before ++ [k]) (clusterings s)
  end.
Proof.
  cbn zeta. revert acc s. induction ks as [| k ks IH]; intros acc s.
  { cbn. split; [| done]. intros k Hk. by apply elem_of_nil in Hk. }
  cbn [for_fold]. rewrite bind_run.
  destruct (multipleKmeans_step_outcome d k_min n_init k acc s)
    as (Hnames & Hres & Hout).
  destruct (multipleKmeans_step d k_min n_init k acc s) as [r s1].
  cbn [fst snd] in Hnames, Hres, Hout.
  destruct (kmeans_scored d (country_names s) n_init k) as [scores | e]
    eqn:Hscored.
  - destruct Hout as [acc1 ->]. specialize (IH acc1 s1).
    rewrite Hnames, Hres in IH.
    destruct (for_fold ks (multipleKmeans_step d k_min n_init) acc1 s1).1
      as [r | e].
    + destruct IH as [Hall ->]. split; [| done].
      intros k' [-> | Hk']%elem_of_cons; eauto.
    + destruct IH as (before & k' & after & -> & Hall & Hraise & ->).
      exists (k :: before), k', after. split; [done |]. split; [| done].
      intros k'' [-> | Hk'']%elem_of_cons; eauto.
  - rewrite Hout. cbn. exists [], k, ks. split; [done |]. split; [| done].
    intros k' Hk'. by apply elem_of_nil in Hk'.
Qed.

(** X26. What [multipleKmeans] leaves when it raises.  It goes through the
    counts of the range in turn, and each turn fits the labels, stores
    their table under [kmeans<k>] and then scores them.  When it returns,
    every count was fitted and scored, and the results are those of
    [kmeans] for the whole range.  When it raises in the loop, it is at the
    first count [k] for which the fit, the table or a score raises, with
    that error: the results are those of [kmeans] for the counts before [k]
    and for [k] itself, so the table of [k] is stored whenever it could be
    built, a failing score notwithstanding.  Otherwise it raises before the
    loop, on the arrays of a negative length, and stores nothing. *)
Theorem multipleKmeans_stores_prefix (k_min k_max on_PC n_init : Z)
    (s : Session) (d : DataFrame Q) :
  (select_features on_PC s).1 = Ok d →
  let names := country_names s in
  let out := multipleKmeans k_min k_max on_PC n_init s in
  match out.1 with
  | Ok _ =>
      (∀ k, k ∈ arange k_min k_max →
            ∃ scores, kmeans_scored d names n_init k = Ok scores) ∧
      clusterings out.2
      = stored_tables d names n_init (arange k_min k_max) (clusterings s)
  | Raise e =>
      (k_max < k_min ∧
       e = ValueError "negative dimensions are not allowed" ∧ out.2 = s) ∨
      ∃ before k after,
        arange k_min k_max = before ++ k :: after ∧
        (∀ k', k' ∈ before →
               ∃ scores, kmeans_scored d names n_init k' = Ok scores) ∧
        kmeans_scored d names n_init k = Raise e ∧
        clusterings out.2
        = stored_tables d names n_init (before ++ [k]) (clusterings s) ∧
        (∀ t, kmeans_table d names n_init k = Ok t →
              clusterings out.2 !! ("kmeans" +:+ str k) = Some t)
  end.
Proof.
  intros Hsel. cbn zeta. unfold multipleKmeans. rewrite bind_run.
  pose proof (select_features_session on_PC s) as Hs.
  destruct (select_features on_PC s) as [[d' | e] s0]; cbn in Hsel, Hs;
    [| done].
  injection Hsel as ->. subst s0.
  unfold multipleKmeans_on, np_zeros, lift. rewrite !bind_run.
  destruct (decide (k_max - k_min < 0)) as [Hneg | Hpos].
  { cbn. left. split; [lia | done]. }
  rewrite bind_run.
  pose proof (multipleKmeans_loop_outcome d k_min n_init (arange k_min k_max)
                (replicate (Z.to_nat (k_max - k_min)) 0%Q,
                 replicate (Z.to_nat (k_max - k_min)) 0%Q) s) as Hloop.
  cbn zeta in Hloop.
  destruct (for_fold (arange k_min k_max) (multipleKmeans_step d k_min n_init)
              _ s).1 as [r | e]; [done |].
  right. destruct Hloop as (before & k & after & Heq & Hall & Hraise & Hres).
  exists before, k, after. repeat (split; [done |]).
  intros t Ht. rewrite Hres. apply stored_tables_lookup; [| done].
  apply elem_of_app. right. left.
Qed.

End WithLibrary.

Section OnSample.

#[local] Existing Instance Sample.sample_library.

Lemma init_session_witness :
  (clusterings Sample.session = ∅ ∧ df_pc Sample.session = None ∧
   pca Sample.session = None ∧ link Sample.session = None ∧
   min_BIC Sample.session = None ∧ np_random Sample.session = 0) ∧
  (∀ l, l ∈ columns (df Sample.session) ↔
        l ∈ columns Sample.cleaned ∧
        l ≠ Text "Country Code" ∧ l ≠ Text "Country Name") ∧
  ∃ jc jn,
    columns Sample.cleaned !! jc = Some (Text "Country Code") ∧
    columns Sample.cleaned !! jn = Some (Text "Country Name") ∧
    length (index (df Sample.session)) = length (values Sample.cleaned) ∧
    length (country_names Sample.session) = length (values Sample.cleaned) ∧
    ∀ i row, values Sample.cleaned !! i = Some row →
      index (df Sample.session) !! i = Some (nth jc row NaN) ∧
      country_names Sample.session !! i = Some (nth jn row NaN).
Proof.
  apply (init_session Sample.cleaned (0 : @rng_state Sample.sample_library)
           Sample.session).
  - repeat constructor.
  - apply (bool_decide_unpack _). vm_compute. exact I.
  - reflexivity.
Defined.

Lemma getPC_enables_projection_witness :
  let s' := run [Kmeans 2 0 50 true; GetPC] (getPC Sample.session).2 in
  ∃ pc, df_pc s' = Some pc ∧
        select_features 1 s' = (Ok (iloc_columns (1 + 1) pc), s').
Proof.
  apply (getPC_enables_projection Sample.session [Kmeans 2 0 50 true; GetPC] 1).
  - reflexivity.
  - lia.
Defined.

Lemma select_features_all_components_witness :
  select_features 5 Sample.session_pc = (Ok Sample.scores, Sample.session_pc).
Proof.
  apply (select_features_all_components 5 Sample.scores Sample.session_pc).
  - lia.
  - reflexivity.
  - repeat constructor.
  - vm_compute. discriminate.
Defined.

Lemma clustering_calls_keep_data_witness :
  same_data Sample.session_pc
    (run [Kmeans 2 1 50 true; Hdbscan 2 0; GmBIC 1 4 "full" 50 0]
         Sample.session_pc).
Proof.
  apply (clustering_calls_keep_data
           [Kmeans 2 1 50 true; Hdbscan 2 0; GmBIC 1 4 "full" 50 0]
           Sample.session_pc).
  repeat constructor; discriminate.
Defined.

Lemma hierarchicalClustering_stores_until_failure_witness :
  let table := hierarchical_table (df Sample.session)
                 (country_names Sample.session) "euclidean" None in
  let out := hierarchicalClustering "euclidean" (MethodName "all") None 0
               Sample.session in
  ∃ done rest, linkage_methods (MethodName "all") = done ++ rest ∧
    (∀ met, met ∈ done → ∃ t,
        table met = Ok t ∧
        clusterings out.2 !! hierarchical_name met "euclidean" = Some t) ∧
    (∀ name, name ∉ (λ met, hierarchical_name met "euclidean") <$> done →
             clusterings out.2 !! name = clusterings Sample.session !! name) ∧
    match out.1 with
    | Ok _ => rest = []
    | Raise e => ∃ met, head rest = Some met ∧ table met = Raise e
    end.
Proof.
  apply (hierarchicalClustering_stores_until_failure "euclidean"
           (MethodName "all") None 0 Sample.session (df Sample.session)).
  reflexivity.
Defined.

Lemma failed_call_stores_nothing_witness :
  match (exec (Hdbscan 2 0) Sample.session).1 with
  | Ok _ => ∃ name t,
      run_names (Hdbscan 2 0) = [name] ∧
      clusterings (exec (Hdbscan 2 0) Sample.session).2
      = <[name := t]> (clusterings Sample.session)
  | Raise _ =>
      clusterings (exec (Hdbscan 2 0) Sample.session).2
      = clusterings Sample.session
  end.
Proof.
  apply (failed_call_stores_nothing (Hdbscan 2 0) Sample.session).
  reflexivity.
Defined.

Lemma kmeans_resets_generator_witness :
  np_random (kmeans 2 0 50 true Sample.session).2
  = (KMeans_fit_predict (np_random_seed 42) 2 50 (df Sample.session)).2.
Proof.
  apply (kmeans_resets_generator 2 0 50 true Sample.session
           (df Sample.session)).
  reflexivity.
Defined.

Lemma gmBIC_empty_range_witness :
  gmBIC 3 3 "full" 50 0 Sample.session
  = (Raise (ValueError "attempt to get argmin of an empty sequence"),
     Sample.session).
Proof.
  apply (gmBIC_empty_range 3 3 "full" 50 0 Sample.session
           (df Sample.session)).
  - lia.
  - reflexivity.
Defined.

Lemma gmBIC_on_from_one_witness :
  ∃ bics i n b s',
    gmBIC_on (df Sample.session) 1 4 "full" 50 Sample.session = (Ok tt, s') ∧
    min_BIC s' = Some (n, b) ∧
    Forall2 (λ n x, ∃ g, (GaussianMixture_fit_bic g n "full" 50
                            (df Sample.session)).1 = Ok x)
            (arange 1 4) bics ∧
    arange 1 4 !! i = Some n ∧
    bics !! i = Some b ∧
    (∀ j x, bics !! j = Some x → (b <= x)%Q).
Proof.
  apply (gmBIC_on_from_one (df Sample.session) 4 "full" 50 Sample.session).
  - lia.
  - intros g n Hn. eexists. reflexivity.
Defined.

Lemma multipleKmeans_empty_range_witness :
  multipleKmeans 3 2 0 50 Sample.session
  = (if decide (2 = 3) then Ok ([], [])
     else Raise (ValueError "negative dimensions are not allowed"),
     Sample.session).
Proof.
  apply (multipleKmeans_empty_range 3 2 0 50 Sample.session
           (df Sample.session)).
  - lia.
  - reflexivity.
Defined.

Lemma multipleKmeans_stores_prefix_witness :
  let names := country_names Sample.session in
  let out := multipleKmeans 1 4 0 50 Sample.session in
  match out.1 with
  | Ok _ =>
      (∀ k, k ∈ arange 1 4 →
            ∃ scores, kmeans_scored (df Sample.session) names 50 k
                      = Ok scores) ∧
      clusterings out.2
      = stored_tables (df Sample.session) names 50 (arange 1 4)
          (clusterings Sample.session)
  | Raise e =>
      (4 < 1 ∧
       e = ValueError "negative dimensions are not allowed" ∧
       out.2 = Sample.session) ∨
      ∃ before k after,
        arange 1 4 = before ++ k :: after ∧
        (∀ k', k' ∈ before →
               ∃ scores, kmeans_scored (df Sample.session) names 50 k'
                         = Ok scores) ∧
        kmeans_scored (df Sample.session) names 50 k = Raise e ∧
        clusterings out.2
        = stored_tables (df Sample.session) names 50 (before ++ [k])
            (clusterings Sample.session) ∧
        (∀ t, kmeans_table (df Sample.session) names 50 k = Ok t →
              clusterings out.2 !! ("kmeans" +:+ str k) = Some t)
  end.
Proof.
  apply (multipleKmeans_stores_prefix 1 4 0 50 Sample.session
           (df Sample.session)).
  reflexivity.
Defined.

End OnSample.

End ClusteringCoverage.
